(** * ESCursor: a batched pagination cursor over a search backend

    A shallow embedding of [escursor/escursor.py] and the verification of
    its paging behaviour: construction ([get_total_hits], [__init__]),
    restart ([__iter__]), window advancement ([_fetch_next_batch]) and the
    next-item operation ([__next__]).

    Python integers are unbounded, so they are [Z]; lengths and list
    indices are [nat].  Dictionaries are [gmap string json], whose equality
    is Python's [==] on dicts.  Dict objects live in a heap and are passed
    by reference, so that copying and item assignment are visible.  The
    search backend is an oracle that answers each request from the history
    of calls made so far; every request is recorded in a log. *)

From stdpp Require Import gmap strings list fin_maps.

#[local] Set Warnings "-register-all".
#[local] Open Scope Z_scope.

(** ** Values *)

Inductive json : Type :=
  | JNull
  | JBool (b : bool)
  | JInt (n : Z)
  | JStr (s : string)
  | JList (l : list json)
  | JDict (d : gmap string json).

(** A document is one element of [res["hits"]["hits"]]; the cursor never
    looks inside it. *)
Definition Doc : Type := json.

(** ** Exceptions and the state-and-exception monad *)

Inductive exn : Type :=
  | StopIteration
  | BackendError (info : string)   (* whatever the backend client raises *)
  | AttributeError
  | IndexError.

Inductive outcome (A : Type) : Type :=
  | Return (a : A)
  | Raise (e : exn).
Arguments Return {A} a.
Arguments Raise {A} e.

(** A computation over a state [S]: an exception leaves the state as it
    was when it was raised, as in Python. *)
Definition M (S A : Type) : Type := S → outcome A * S.

#[export] Instance M_ret {S} : MRet (M S) := λ A a s, (Return a, s).
#[export] Instance M_bind {S} : MBind (M S) := λ A B k m s,
  match m s with
  | (Return a, s') => k a s'
  | (Raise e, s') => (Raise e, s')
  end.

Definition raise {S A} (e : exn) : M S A := λ s, (Raise e, s).

(** ** The world: the heap of dict objects and the backend *)

Record Request : Type := mkRequest {
  req_index : string;
  req_doc_type : string;
  req_body : gmap string json
}.

(** The part of a search result the code reads: [res["hits"]["total"]] and
    [res["hits"]["hits"]]. *)
Record Response : Type := mkResponse {
  resp_total : Z;
  resp_hits : list Doc
}.

(** What the backend does with a request: it answers, or the client
    raises one of its own errors. *)
Inductive reply : Type :=
  | Hits (r : Response)
  | Fault (info : string).

Record Call : Type := mkCall {
  call_req : Request;
  call_res : reply
}.

(** [es_conn.search]: the answer may depend on the calls made before (the
    index can change between two requests). *)
Definition Backend : Type := list Call → Request → reply.

(** A backend is unchanged when its answer depends on the request only. *)
Definition unchanged (es : Backend) : Prop :=
  ∀ h1 h2 req, es h1 req = es h2 req.

Record World : Type := mkWorld {
  heap : list (gmap string json);
  log : list Call
}.

Definition deref (h : list (gmap string json)) (l : nat) : gmap string json :=
  default ∅ (h !! l).

(** A new dict object. *)
Definition alloc (d : gmap string json) : M World nat := λ w,
  (Return (length (heap w)), {| heap := heap w ++ [d]; log := log w |}).

(** [d.copy()] *)
Definition dict_copy (l : nat) : M World nat := λ w,
  alloc (deref (heap w) l) w.

(** [k in d] *)
Definition dict_contains (l : nat) (k : string) : M World bool := λ w,
  (Return (bool_decide (is_Some (deref (heap w) l !! k))), w).

(** [d[k] = v] *)
Definition dict_setitem (l : nat) (k : string) (v : json) : M World () := λ w,
  (Return (), {| heap := <[l := <[k := v]> (deref (heap w) l)]> (heap w);
                 log := log w |}).

(** [es_conn.search(index=index, doc_type=doc_type, body=body)] *)
Definition search (es_conn : Backend) (index doc_type : string) (body : nat)
    : M World Response := λ w,
  let req := mkRequest index doc_type (deref (heap w) body) in
  let res := es_conn (log w) req in
  (match res with
   | Hits r => Return r
   | Fault info => Raise (BackendError info)
   end,
   {| heap := heap w; log := log w ++ [mkCall req res] |}).

(** ** get_total_hits *)

Definition get_total_hits (es_conn : Backend) (index doc_type : string)
    (body : nat) : M World Z :=
  body ← dict_copy body;
  has_size ← dict_contains body "size";
  (if negb has_size then dict_setitem body "size" (JInt 0) else mret ());;
  res ← search es_conn index doc_type body;
  mret (resp_total res).

(** ** class ESCursor *)

Definition default_query_body : gmap string json :=
  {[ "query" := JDict {[ "match_all" := JDict ∅ ]} ]}.
Definition default_doc_type : string := "_doc".
Definition default_batch_size : Z := 10000.

Record ESCursor : Type := mkESCursor {
  es_conn : Backend;
  index : string;
  doc_type : string;
  body : nat;                   (* a reference to the caller's dict *)
  total_number : Z;
  batch_size : Z;
  offset : Z;
  inbtach_idx : nat;
  current_batch_size : nat;
  hits : option (list Doc)      (* absent until the first fetch *)
}.

Definition set_offset (v : Z) (c : ESCursor) : ESCursor :=
  mkESCursor (es_conn c) (index c) (doc_type c) (body c) (total_number c)
    (batch_size c) v (inbtach_idx c) (current_batch_size c) (hits c).
Definition set_inbtach_idx (v : nat) (c : ESCursor) : ESCursor :=
  mkESCursor (es_conn c) (index c) (doc_type c) (body c) (total_number c)
    (batch_size c) (offset c) v (current_batch_size c) (hits c).
Definition set_current_batch_size (v : nat) (c : ESCursor) : ESCursor :=
  mkESCursor (es_conn c) (index c) (doc_type c) (body c) (total_number c)
    (batch_size c) (offset c) (inbtach_idx c) v (hits c).
Definition set_hits (v : list Doc) (c : ESCursor) : ESCursor :=
  mkESCursor (es_conn c) (index c) (doc_type c) (body c) (total_number c)
    (batch_size c) (offset c) (inbtach_idx c) (current_batch_size c) (Some v).

Definition __init__ (es_conn : Backend) (index doc_type : string) (body : nat)
    (total_number : option Z) (batch_size : Z) : M World ESCursor :=
  actual_total_number ← get_total_hits es_conn index doc_type body;
  let total_number :=
    match total_number with
    | None => actual_total_number
    | Some n => if n >? actual_total_number then actual_total_number else n
    end in
  let batch_size :=
    if batch_size <? total_number then batch_size else total_number in
  mret (mkESCursor es_conn index doc_type body total_number batch_size
          0 0%nat 0%nat None).

(** Methods run on the object and the world together. *)
Definition Self : Type := ESCursor * World.

Definition self : M Self ESCursor := λ s, (Return (fst s), s).
Definition update (f : ESCursor → ESCursor) : M Self () := λ s,
  (Return (), (f (fst s), snd s)).
Definition io {A} (m : M World A) : M Self A := λ s,
  let '(r, w) := m (snd s) in (r, (fst s, w)).

(** [{**self.body, "from": self.offset, "size": self.batch_size}]: later
    keys win. *)
Definition body_batch (tmpl : gmap string json) (from size : Z)
    : gmap string json :=
  <["size" := JInt size]> (<["from" := JInt from]> tmpl).

Definition _fetch_next_batch : M Self () :=
  c ← self;
  update (set_offset (offset c + Z.of_nat (current_batch_size c)));;
  c ← self;
  if offset c >=? total_number c then raise StopIteration
  else
    b ← io (λ w, alloc (body_batch (deref (heap w) (body c))
                          (offset c) (batch_size c)) w);
    res_data ← io (search (es_conn c) (index c) (doc_type c) b);
    update (set_hits (resp_hits res_data));;
    update (set_current_batch_size (length (resp_hits res_data)));;
    update (set_inbtach_idx 0%nat).

Definition __iter__ : M Self () :=
  update (set_offset 0);;
  update (set_inbtach_idx 0%nat);;
  update (set_current_batch_size 0%nat);;
  _fetch_next_batch.

Definition __next__ : M Self Doc :=
  c ← self;
  (if bool_decide (current_batch_size c ≤ inbtach_idx c)%nat then
     _fetch_next_batch;;
     c ← self;
     if bool_decide (inbtach_idx c = current_batch_size c) then
       raise StopIteration
     else mret ()
   else mret ());;
  c ← self;
  match hits c with
  | None => raise AttributeError
  | Some h =>
      match h !! inbtach_idx c with
      | None => raise IndexError
      | Some r =>
          update (set_inbtach_idx (inbtach_idx c + 1)%nat);;
          mret r
      end
  end.

(** ** Driving the cursor *)

(** [for doc in cursor: ...]: [__iter__] once, then [__next__] until it
    raises.  [StopIteration] out of [__next__] ends the loop; any exception
    out of [__iter__], and any other exception out of [__next__], reaches
    the caller. *)
Inductive pass_end : Type :=
  | Exhausted
  | Propagated (e : exn)
  | Unfinished.

Record pass_result : Type := mkPass {
  yielded : list Doc;
  ending : pass_end;
  final : Self
}.

Fixpoint for_each (fuel : nat) (acc : list Doc) (s : Self) : pass_result :=
  match fuel with
  | O => mkPass acc Unfinished s
  | S fuel =>
      match __next__ s with
      | (Return d, s') => for_each fuel (acc ++ [d]) s'
      | (Raise StopIteration, s') => mkPass acc Exhausted s'
      | (Raise e, s') => mkPass acc (Propagated e) s'
      end
  end.

Definition pass (fuel : nat) (s : Self) : pass_result :=
  match __iter__ s with
  | (Return _, s') => for_each fuel [] s'
  | (Raise e, s') => mkPass [] (Propagated e) s'
  end.

(** [n] calls of [__next__] in a row by a caller that catches whatever is
    raised. *)
Fixpoint nexts (n : nat) (s : Self) : list (outcome Doc) * Self :=
  match n with
  | O => ([], s)
  | S n =>
      let '(r, s') := __next__ s in
      let '(rs, s'') := nexts n s' in
      (r :: rs, s'')
  end.

(** Any interleaving of restarts and next-item calls. *)
Inductive op : Type := Restart | NextItem.

Definition run_op (o : op) (s : Self) : Self :=
  match o with
  | Restart => snd (__iter__ s)
  | NextItem => snd (__next__ s)
  end.

Definition run_ops (ops : list op) (s : Self) : Self :=
  foldl (λ s o, run_op o s) s ops.

(** The windowed requests of a run: the calls logged after the first [n]. *)
Definition calls_since (n : nat) (s : Self) : list Call := drop n (log (snd s)).

Definition from_of (c : Call) : option json := req_body (call_req c) !! "from".
Definition size_of (c : Call) : option json := req_body (call_req c) !! "size".
Definition window_of (c : Call) : list Doc :=
  match call_res c with
  | Hits r => resp_hits r
  | Fault _ => []
  end.

(** ** Backends and worlds for the scenarios *)

Definition int_field (d : gmap string json) (k : string) (dflt : Z) : option Z :=
  match d !! k with
  | None => Some dflt
  | Some (JInt n) => if 0 <=? n then Some n else None
  | Some _ => None
  end.

(** An index holding the documents [docs], in order: it reports their
    number and returns the window [docs[from : from + size]]. *)
Definition static_index (docs : list Doc) : Backend := λ _ req,
  match int_field (req_body req) "from" 0, int_field (req_body req) "size" 10 with
  | Some f, Some n =>
      Hits (mkResponse (Z.of_nat (length docs))
              (take (Z.to_nat n) (drop (Z.to_nat f) docs)))
  | _, _ => Fault "bad request"
  end.

(** Documents numbered [0 .. n-1]. *)
Definition numbered (n : nat) : list Doc := (λ i, JInt (Z.of_nat i)) <$> seq 0 n.

(** An index whose documents are deleted right after they were counted:
    the first request sees [docs], every later one an empty index. *)
Definition emptied_after_count (docs : list Doc) : Backend := λ h req,
  match h with
  | [] => static_index docs h req
  | _ :: _ => static_index [] h req
  end.

(** An index that returns at most [n] documents for the window at offset
    [o] (documents of that window were deleted meanwhile). *)
Definition short_at (o : Z) (n : nat) (es : Backend) : Backend := λ h req,
  match es h req, int_field (req_body req) "from" 0 with
  | Hits r, Some f =>
      if f =? o then Hits (mkResponse (resp_total r) (take n (resp_hits r)))
      else Hits r
  | res, _ => res
  end.

(** The world in which the scenarios start: the caller's query body is the
    only dict object, at reference 0, and no request has been made. *)
Definition world_with (d : gmap string json) : World := mkWorld [d] [].

(** Build a cursor on the index ["bank"] over the default query body. *)
Definition scenario (es : Backend) (total_number : option Z) (batch_size : Z)
    : option Self :=
  match __init__ es "bank" default_doc_type 0%nat total_number batch_size
          (world_with default_query_body) with
  | (Return c, w) => Some (c, w)
  | (Raise _, _) => None
  end.

(** ** Notions used in the statements *)

(** The body [get_total_hits] sends: the caller's, with ["size"] added
    only when it has none. *)
Definition count_body (d : gmap string json) : gmap string json :=
  if bool_decide (is_Some (d !! "size")) then d else <["size" := JInt 0]> d.

Definition count_request (index doc_type : string) (d : gmap string json)
    : Request :=
  mkRequest index doc_type (count_body d).

Definition effective_total (total_number : option Z) (actual : Z) : Z :=
  match total_number with
  | None => actual
  | Some n => if n >? actual then actual else n
  end.

(** The state in which [__iter__] calls [_fetch_next_batch]. *)
Definition restarted (c : ESCursor) : ESCursor :=
  mkESCursor (es_conn c) (index c) (doc_type c) (body c) (total_number c)
    (batch_size c) 0 0%nat 0%nat (hits c).

(** The windowed request for offset [o]. *)
Definition batch_request (c : ESCursor) (w : World) (o : Z) : Request :=
  mkRequest (index c) (doc_type c)
    (body_batch (deref (heap w) (body c)) o (batch_size c)).

(** The windowed request for offset [o] over the query body [tmpl]. *)
Definition window_request (c : ESCursor) (tmpl : gmap string json) (o : Z)
    : Request :=
  mkRequest (index c) (doc_type c) (body_batch tmpl o (batch_size c)).

(** The world after the windowed request for offset [o] was answered by
    [res]. *)
Definition fetched_world (c : ESCursor) (w : World) (o : Z)
    (res : reply) : World :=
  mkWorld (heap w ++ [req_body (batch_request c w o)])
    (log w ++ [mkCall (batch_request c w o) res]).

(** The cursor after the window [h] was stored for offset [o]. *)
Definition loaded (c : ESCursor) (o : Z) (h : list Doc) : ESCursor :=
  mkESCursor (es_conn c) (index c) (doc_type c) (body c) (total_number c)
    (batch_size c) o 0%nat (length h) (Some h).

(** A cursor with nothing left: the window is used up, and either the
    offset has reached the total or the window just fetched was empty. *)
Definition drained (c : ESCursor) (w : World) : Prop :=
  (current_batch_size c ≤ inbtach_idx c)%nat ∧
  (total_number c ≤ offset c + Z.of_nat (current_batch_size c) ∨
   current_batch_size c = 0%nat ∧
   ∃ r, es_conn c (log w) (batch_request c w (offset c)) = Hits r ∧
        resp_hits r = []).

(** A run of windowed fetches starting at offset [o]: each request is the
    one for the current offset, and the next offset is the current one plus
    the number of documents that came back.  A fault ends the run. *)
Inductive windowing (req_at : Z → Request) : Z → list Call → Prop :=
  | windowing_nil o : windowing req_at o []
  | windowing_hits o r rest :
      windowing req_at (o + Z.of_nat (length (resp_hits r))) rest →
      windowing req_at o (mkCall (req_at o) (Hits r) :: rest)
  | windowing_fault o info :
      windowing req_at o [mkCall (req_at o) (Fault info)].

(** The offsets of successive fetches strictly increase. *)
Definition strictly_increasing_offsets (calls : list Call) : Prop :=
  ∀ j k k' o o',
    calls !! j = Some k → calls !! S j = Some k' →
    from_of k = Some (JInt o) → from_of k' = Some (JInt o') → o < o'.

(** The offsets [o], [o + b], [o + 2b], ... that lie below [total]. *)
Definition window_offsets (o total b : Z) : list Z :=
  (λ j : nat, o + Z.of_nat j * b) <$> seq 0 (Z.to_nat ((total - o + b - 1) / b)).

(** The backend returns the full window at every offset the cursor
    requests (the multiples of [batch_size] below the effective total):
    [batch_size] documents, or what is left up to the total when that is
    less (the last window). *)
Definition full_windows (c : ESCursor) (tmpl : gmap string json) : Prop :=
  ∀ h (j : nat),
    let o := Z.of_nat j * batch_size c in
    o < total_number c →
    ∃ r, es_conn c h (window_request c tmpl o) = Hits r ∧
         Z.of_nat (length (resp_hits r))
           = Z.min (batch_size c) (total_number c - o).

(** Every logged call carries the backend's answer to its request. *)
Definition answered (es : Backend) (calls : list Call) : Prop :=
  Forall (λ k, ∃ hst, call_res k = es hst (call_req k)) calls.

(** A backend that cannot be reached. *)
Definition unreachable (info : string) : Backend := λ _ _, Fault info.

(** The paging state is consistent: the index lies within the current
    window, the offset is not negative, and a non-empty window is the
    stored list of hits. *)
Definition consistent (c : ESCursor) : Prop :=
  (inbtach_idx c ≤ current_batch_size c)%nat ∧
  0 ≤ offset c ∧
  (current_batch_size c = 0%nat ∨
   ∃ h, hits c = Some h ∧ current_batch_size c = length h).

(** Two cursors built with the same arguments, whatever their paging
    state. *)
Definition same_config (c c' : ESCursor) : Prop :=
  es_conn c' = es_conn c ∧ index c' = index c ∧ doc_type c' = doc_type c ∧
  body c' = body c ∧ total_number c' = total_number c ∧
  batch_size c' = batch_size c.

(** What [__next__] can produce on a cursor: a document, the end of the
    sequence, or an error of the backend. *)
Definition regular (r : outcome Doc) : Prop :=
  match r with
  | Return _ | Raise StopIteration | Raise (BackendError _) => True
  | Raise AttributeError | Raise IndexError => False
  end.

(** The documents of the current window that were not yielded yet. *)
Definition pending (c : ESCursor) : list Doc :=
  if decide (current_batch_size c = 0%nat) then []
  else drop (inbtach_idx c) (default [] (hits c)).

(** The backend never returns more documents than the window asks for. *)
Definition honours_size (c : ESCursor) (tmpl : gmap string json) : Prop :=
  ∀ hst o r, es_conn c hst (window_request c tmpl o) = Hits r →
    Z.of_nat (length (resp_hits r)) ≤ batch_size c.

(** ** get_id_iter *)

(** [elasticsearch.helpers.scan] is a library generator: the hits it
    yields, in order, and the error of the backend that ends it, if any.
    It is a parameter of [get_id_iter]. *)
Definition Scan : Type :=
  Backend → Request → list (gmap string json) * option string.

(** What a generator has yielded when it stops, and the exception that
    stopped it ([None] when it is exhausted). *)
Inductive iter_exn : Type :=
  | KeyError (k : string)
  | ScanError (info : string).

Definition id_query_body : gmap string json :=
  {[ "query" := JDict {[ "match_all" := JDict ∅ ]};
     "stored_fields" := JList [] ]}.

(** [for rec in it: yield rec['_id']] *)
Fixpoint yield_ids (recs : list (gmap string json)) (ending : option iter_exn)
    : list json * option iter_exn :=
  match recs with
  | [] => ([], ending)
  | rec :: recs =>
      match rec !! "_id" with
      | Some v => let '(ids, e) := yield_ids recs ending in (v :: ids, e)
      | None => ([], Some (KeyError "_id"))
      end
  end.

Definition get_id_iter (scan : Scan) (es : Backend) (index doc_type : string)
    : list json * option iter_exn :=
  let query_body := id_query_body in
  let it := scan es (mkRequest index doc_type query_body) in
  yield_ids (fst it) (ScanError <$> snd it).

(** ** The demonstration run *)

(** The block under [if __name__ == "__main__"]: [es] is the connection
    [Elasticsearch()] gives, [default_ref] the reference of the class
    constant [ESCursor.default_query_body]; the documents printed are the
    ones the pass yields. *)
Definition main (es : Backend) (default_ref : nat) (fuel : nat)
    : M World pass_result :=
  let body := default_ref in
  dict_setitem body "stored_fields" (JList []);;
  (es_cursor ← __init__ es "bank" "contact" body (Some 200) 10;
   ((λ w, let r := pass fuel (es_cursor, w) in (Return r, snd (final r)))
      : M World pass_result)).

(** * Verification *)

(** ** Equations of the operations *)

Lemma deref_alloc h d : deref (h ++ [d]) (length h) = d.
Proof. unfold deref. by rewrite list_lookup_middle. Qed.

Lemma deref_app h h' l d : h !! l = Some d → deref (h ++ h') l = d.
Proof. intros H. unfold deref. by rewrite (lookup_app_l_Some _ _ _ _ H). Qed.

Lemma setitem_alloc h (d d' : gmap string json) :
  <[length h := d']> (h ++ [d]) = h ++ [d'].
Proof.
  rewrite insert_app_r_alt by lia.
  by replace (length h - length h)%nat with 0%nat by lia.
Qed.

Lemma get_total_hits_eq es i dt l w :
  get_total_hits es i dt l w =
    let req := count_request i dt (deref (heap w) l) in
    let res := es (log w) req in
    (match res with
     | Hits r => Return (resp_total r)
     | Fault info => Raise (BackendError info)
     end,
     mkWorld (heap w ++ [req_body req]) (log w ++ [mkCall req res])).
Proof.
  unfold get_total_hits, count_request, count_body, mbind, M_bind, dict_copy,
    alloc, dict_contains, dict_setitem, search, mret, M_ret.
  cbn [heap log]. rewrite !deref_alloc.
  destruct (bool_decide _); cbn [negb heap log req_body];
    rewrite ?setitem_alloc, !deref_alloc; by destruct (es _ _).
Qed.

Lemma __init___eq es i dt l tn bs w :
  __init__ es i dt l tn bs w =
    let req := count_request i dt (deref (heap w) l) in
    let res := es (log w) req in
    (match res with
     | Hits r =>
         let t := effective_total tn (resp_total r) in
         Return (mkESCursor es i dt l t (if bs <? t then bs else t)
                   0 0%nat 0%nat None)
     | Fault info => Raise (BackendError info)
     end,
     mkWorld (heap w ++ [req_body req]) (log w ++ [mkCall req res])).
Proof.
  unfold __init__, mbind, M_bind. rewrite get_total_hits_eq. cbn zeta.
  by destruct (es _ _).
Qed.

Lemma fetch_stop c w :
  total_number c ≤ offset c + Z.of_nat (current_batch_size c) →
  _fetch_next_batch (c, w) =
    (Raise StopIteration,
     (set_offset (offset c + Z.of_nat (current_batch_size c)) c, w)).
Proof.
  intros H. unfold _fetch_next_batch, mbind, M_bind, self, update, raise.
  cbn [fst snd set_offset offset total_number].
  destruct (Z.geb_spec (offset c + Z.of_nat (current_batch_size c))
              (total_number c)); [done | lia].
Qed.

Lemma fetch_go c w :
  offset c + Z.of_nat (current_batch_size c) < total_number c →
  _fetch_next_batch (c, w) =
    let o := offset c + Z.of_nat (current_batch_size c) in
    let res := es_conn c (log w) (batch_request c w o) in
    match res with
    | Hits r => (Return (), (loaded c o (resp_hits r), fetched_world c w o res))
    | Fault info =>
        (Raise (BackendError info), (set_offset o c, fetched_world c w o res))
    end.
Proof.
  intros H. unfold _fetch_next_batch, mbind, M_bind, self, update, raise, io,
    alloc, search.
  cbn [fst snd set_offset offset total_number heap log body batch_size
       es_conn index doc_type].
  destruct (Z.geb_spec (offset c + Z.of_nat (current_batch_size c))
              (total_number c)); [lia |].
  rewrite deref_alloc. unfold batch_request, fetched_world. cbn zeta.
  by destruct (es_conn c _ _).
Qed.

Lemma __iter___eq c w : __iter__ (c, w) = _fetch_next_batch (restarted c, w).
Proof. reflexivity. Qed.

(** The fast path of [__next__]: the current window still has documents. *)
Lemma next_in_window c w h d :
  hits c = Some h → current_batch_size c = length h →
  h !! inbtach_idx c = Some d →
  __next__ (c, w) = (Return d, (set_inbtach_idx (inbtach_idx c + 1) c, w)).
Proof.
  intros Hh Hn Hd. unfold __next__, mbind, M_bind, self, update, mret, M_ret.
  cbn [fst snd]. apply lookup_lt_Some in Hd as Hlt.
  rewrite bool_decide_eq_false_2 by lia. cbn [fst snd]. by rewrite Hh, Hd.
Qed.

(** The slow path: the window is used up and the offset has reached the
    total. *)
Lemma next_stop c w :
  (current_batch_size c ≤ inbtach_idx c)%nat →
  total_number c ≤ offset c + Z.of_nat (current_batch_size c) →
  __next__ (c, w) =
    (Raise StopIteration,
     (set_offset (offset c + Z.of_nat (current_batch_size c)) c, w)).
Proof.
  intros Hi Ht. unfold __next__, mbind, M_bind, self. cbn [fst snd].
  rewrite bool_decide_eq_true_2 by done. by rewrite fetch_stop.
Qed.

(** The slow path: the window is used up and another one is requested. *)
Lemma next_fetch c w :
  (current_batch_size c ≤ inbtach_idx c)%nat →
  offset c + Z.of_nat (current_batch_size c) < total_number c →
  __next__ (c, w) =
    let o := offset c + Z.of_nat (current_batch_size c) in
    let res := es_conn c (log w) (batch_request c w o) in
    match res with
    | Hits r =>
        match resp_hits r with
        | [] => (Raise StopIteration, (loaded c o [], fetched_world c w o res))
        | d :: _ =>
            (Return d, (set_inbtach_idx 1 (loaded c o (resp_hits r)),
                        fetched_world c w o res))
        end
    | Fault info =>
        (Raise (BackendError info), (set_offset o c, fetched_world c w o res))
    end.
Proof.
  intros Hi Ht. unfold __next__, mbind, M_bind, self. cbn [fst snd].
  rewrite bool_decide_eq_true_2 by done. rewrite fetch_go by done. cbn zeta.
  destruct (es_conn c _ _) as [r|e]; [|done].
  destruct (resp_hits r) as [|d ds] eqn:Hr; cbn; [done|].
  by rewrite bool_decide_eq_false_2.
Qed.

(** ** Construction *)

Lemma effective_total_min n t : effective_total (Some n) t = Z.min n t.
Proof. unfold effective_total. destruct (Z.gtb_spec n t); lia. Qed.

Lemma batch_size_min bs t : (if bs <? t then bs else t) = Z.min bs t.
Proof. destruct (Z.ltb_spec bs t); lia. Qed.

(** C1: when the count request of the constructor is answered with the
    total [T], the cursor's effective total is [min N T] for a requested
    limit [N] and [T] when no limit is given, and its batch size is the
    lesser of the configured batch size and the effective total. *)
Theorem init_effective_total es i dt l tn bs w r :
  es (log w) (count_request i dt (deref (heap w) l)) = Hits r →
  ∃ c w', __init__ es i dt l tn bs w = (Return c, w') ∧
    total_number c =
      match tn with
      | Some n => Z.min n (resp_total r)
      | None => resp_total r
      end ∧
    batch_size c = Z.min bs (total_number c).
Proof.
  intros Hr. rewrite __init___eq. cbn zeta. rewrite Hr.
  eexists _, _. split; [reflexivity|]. cbn [total_number batch_size].
  split; [|apply batch_size_min].
  destruct tn as [n|]; [apply effective_total_min | done].
Qed.

(** Scenario B: a limit of 5 over 1000 matches, default batch size. *)
Lemma init_effective_total_witness :
  let es := static_index (numbered 1000) in
  let w := world_with default_query_body in
  es (log w) (count_request "bank" "_doc" (deref (heap w) 0%nat))
    = Hits (mkResponse 1000 []) ∧
  ∃ c w', __init__ es "bank" "_doc" 0%nat (Some 5) default_batch_size w
            = (Return c, w') ∧
    total_number c = 5 ∧ batch_size c = 5.
Proof.
  split; [vm_compute; reflexivity|].
  destruct (init_effective_total (static_index (numbered 1000)) "bank" "_doc"
              0%nat (Some 5) default_batch_size
              (world_with default_query_body) (mkResponse 1000 []))
    as (c & w' & Hi & Ht & Hb); [vm_compute; reflexivity|].
  exists c, w'. split; [exact Hi|]. split; [exact Ht|].
  rewrite Hb, Ht. reflexivity.
Defined.

(** C8 (as amended): the constructor issues exactly one request, and its
    body is the caller's query body with ["size"] set to zero when the
    caller's body has no ["size"] field; a body that already has one is
    sent as it is. *)
Theorem init_one_count_request es i dt l tn bs w :
  let d := deref (heap w) l in
  let req :=
    mkRequest i dt
      (if bool_decide (is_Some (d !! "size")) then d
       else <["size" := JInt 0]> d) in
  log (snd (__init__ es i dt l tn bs w))
    = log w ++ [mkCall req (es (log w) req)].
Proof. rewrite __init___eq. reflexivity. Qed.

(** C8 fails as stated: a caller's body with ["size"] 5 is sent with
    ["size"] 5, not 0. *)
Lemma init_count_request_counterexample :
  let d : gmap string json := <["size" := JInt 5]> default_query_body in
  let w' := snd (__init__ (static_index (numbered 3)) "bank" "_doc" 0%nat
                   None 10 (world_with d)) in
  call_req <$> log w' = [mkRequest "bank" "_doc" d] ∧
  size_of <$> log w' = [Some (JInt 5)] ∧
  ¬ (call_req <$> log w'
       = [mkRequest "bank" "_doc" (<["size" := JInt 0]> d)]).
Proof.
  split; [vm_compute; reflexivity|]. split; [vm_compute; reflexivity|].
  intros H. apply (f_equal (fmap (λ q, req_body q !! "size"))) in H.
  vm_compute in H. discriminate H.
Qed.

(** ** Cursors with nothing to visit *)

Lemma iter_stop c w :
  total_number c ≤ 0 →
  __iter__ (c, w) = (Raise StopIteration, (restarted c, w)).
Proof.
  intros H. rewrite __iter___eq, fetch_stop; [reflexivity|].
  cbn [restarted total_number offset current_batch_size]. lia.
Qed.

Lemma pass_stop c w fuel :
  total_number c ≤ 0 →
  pass fuel (c, w) = mkPass [] (Propagated StopIteration) (restarted c, w).
Proof. intros H. unfold pass. by rewrite iter_stop. Qed.

(** On a cursor whose effective total is zero, beginning iteration raises
    [StopIteration] at once, out of [__iter__]: no document is yielded and
    the world is left as it was, so no windowed request is issued; the loop
    of a pass is not entered, and the exception reaches the caller. *)
Theorem zero_total_iter c w fuel :
  total_number c = 0 →
  fst (__iter__ (c, w)) = Raise StopIteration ∧
  snd (snd (__iter__ (c, w))) = w ∧
  yielded (pass fuel (c, w)) = [] ∧
  ending (pass fuel (c, w)) = Propagated StopIteration ∧
  log (snd (final (pass fuel (c, w)))) = log w.
Proof.
  intros H. rewrite pass_stop, iter_stop by lia. done.
Qed.

(** Scenario C: the backend holds no matching document. *)
Lemma zero_total_iter_witness :
  let c := mkESCursor (static_index []) "bank" default_doc_type 0%nat
             0 0 0 0%nat 0%nat None in
  let w := mkWorld
             [default_query_body; <["size" := JInt 0]> default_query_body]
             [mkCall
                (mkRequest "bank" default_doc_type
                   (<["size" := JInt 0]> default_query_body))
                (Hits (mkResponse 0 []))] in
  scenario (static_index []) None 10 = Some (c, w) ∧
  total_number c = 0 ∧
  fst (__iter__ (c, w)) = Raise StopIteration ∧
  snd (snd (__iter__ (c, w))) = w ∧
  yielded (pass 7 (c, w)) = [] ∧
  ending (pass 7 (c, w)) = Propagated StopIteration ∧
  log (snd (final (pass 7 (c, w)))) = log w.
Proof.
  intros c w. split; [reflexivity|]. split; [reflexivity|].
  exact (zero_total_iter c w 7 eq_refl).
Defined.

(** C6 fails on the code (Scenario C): over an index without a matching
    document the effective total is zero, no document is yielded and no
    windowed request is made, as the claim says; but the end of the
    sequence is not signalled.  [StopIteration] is raised by [__iter__]
    itself, where the [for] statement does not catch it: the pass does not
    end like an exhausted one ([Exhausted], as when [__next__] raises it
    "to end the iteration"), the exception reaches the caller. *)
Lemma zero_total_for_loop_raises :
  ∃ s, scenario (static_index []) None 10 = Some s ∧
    total_number (fst s) = 0 ∧
    fst (__iter__ s) = Raise StopIteration ∧
    yielded (pass 7 s) = [] ∧
    calls_since 1 (final (pass 7 s)) = [] ∧
    ending (pass 7 s) = Propagated StopIteration ∧
    ending (pass 7 s) ≠ Exhausted.
Proof.
  eexists. split; [reflexivity|].
  split; [reflexivity|]. split; [reflexivity|]. split; [reflexivity|].
  split; [reflexivity|]. split; [reflexivity|]. discriminate.
Qed.

(** A requested limit that is zero or negative is stored unchanged as the
    effective total (the backend's count being non-negative), and beginning
    iteration then raises [StopIteration] out of [__iter__] without
    touching the world: no windowed request is issued, and the exception
    reaches the caller of the pass. *)
Theorem nonpositive_limit es i dt l n bs w r fuel :
  es (log w) (count_request i dt (deref (heap w) l)) = Hits r →
  0 ≤ resp_total r →
  n ≤ 0 →
  ∃ c w', __init__ es i dt l (Some n) bs w = (Return c, w') ∧
    total_number c = n ∧
    __iter__ (c, w') = (Raise StopIteration, (c, w')) ∧
    pass fuel (c, w') = mkPass [] (Propagated StopIteration) (c, w').
Proof.
  intros Hr Ht Hn. rewrite __init___eq. cbn zeta. rewrite Hr.
  eexists _, _. split; [reflexivity|].
  rewrite effective_total_min.
  split; [cbn [total_number]; lia|].
  rewrite pass_stop, iter_stop by (cbn [total_number]; lia). done.
Qed.

Lemma nonpositive_limit_witness :
  let es := static_index (numbered 7) in
  let w := world_with default_query_body in
  es (log w) (count_request "bank" "_doc" (deref (heap w) 0%nat))
    = Hits (mkResponse 7 []) ∧
  0 ≤ 7 ∧ -3 ≤ 0 ∧
  ∃ c w', __init__ es "bank" "_doc" 0%nat (Some (-3)) 10 w = (Return c, w') ∧
    total_number c = -3 ∧
    __iter__ (c, w') = (Raise StopIteration, (c, w')) ∧
    pass 9 (c, w') = mkPass [] (Propagated StopIteration) (c, w').
Proof.
  split; [vm_compute; reflexivity|]. split; [lia|]. split; [lia|].
  apply (nonpositive_limit (static_index (numbered 7)) "bank" "_doc" 0%nat
           (-3) 10 (world_with default_query_body) (mkResponse 7 []) 9);
    [vm_compute; reflexivity | simpl; lia | lia].
Defined.

(** C10 fails on the code: a limit of -3 over seven matching documents is
    stored as it is (the effective total is -3, not 0) and beginning
    iteration makes no windowed request, as the claim says; but the end of
    the sequence is not signalled.  As for an effective total of zero,
    [StopIteration] is raised by [__iter__] itself, where the [for]
    statement does not catch it: the pass does not end like an exhausted
    one, the exception reaches the caller. *)
Lemma nonpositive_limit_for_loop_raises :
  ∃ s, scenario (static_index (numbered 7)) (Some (-3)) 10 = Some s ∧
    total_number (fst s) = -3 ∧
    fst (__iter__ s) = Raise StopIteration ∧
    yielded (pass 9 s) = [] ∧
    calls_since 1 (final (pass 9 s)) = [] ∧
    ending (pass 9 s) = Propagated StopIteration ∧
    ending (pass 9 s) ≠ Exhausted.
Proof.
  eexists. split; [reflexivity|].
  split; [reflexivity|]. split; [reflexivity|]. split; [reflexivity|].
  split; [reflexivity|]. split; [reflexivity|]. discriminate.
Qed.

(** ** The next-item operation, case by case *)

Lemma next_fast c w :
  (inbtach_idx c < current_batch_size c)%nat →
  ∃ r c', __next__ (c, w) = (r, (c', w)) ∧ r ≠ Raise StopIteration ∧
    (c' = c ∨ c' = set_inbtach_idx (inbtach_idx c + 1) c).
Proof.
  intros Hlt. unfold __next__, mbind, M_bind, self, update, mret, M_ret, raise.
  cbn [fst snd]. rewrite bool_decide_eq_false_2 by lia. cbn [fst snd].
  destruct (hits c) as [h|]; [|by eexists _, _; eauto].
  destruct (h !! inbtach_idx c); eexists _, _; eauto.
Qed.

Lemma batch_request_stable c c' w w' h' o tmpl :
  heap w !! body c = Some tmpl →
  heap w' = heap w ++ h' →
  index c' = index c → doc_type c' = doc_type c → body c' = body c →
  batch_size c' = batch_size c →
  batch_request c' w' o = batch_request c w o.
Proof.
  intros Ht Hw Hi Hd Hb Hs. unfold batch_request.
  rewrite Hi, Hd, Hb, Hs, Hw, (deref_app _ _ _ _ Ht).
  unfold deref. by rewrite Ht.
Qed.

(** ** Exhaustion is terminal *)

Lemma drained_next c w tmpl :
  unchanged (es_conn c) → heap w !! body c = Some tmpl → drained c w →
  ∃ c' w', __next__ (c, w) = (Raise StopIteration, (c', w')) ∧
    es_conn c' = es_conn c ∧ body c' = body c ∧
    heap w' !! body c' = Some tmpl ∧ drained c' w'.
Proof.
  intros Hun Ht [Hi Hd].
  destruct (Z.le_gt_cases (total_number c)
              (offset c + Z.of_nat (current_batch_size c))) as [Hge|Hlt].
  - rewrite next_stop by done. eexists _, _. split; [reflexivity|].
    repeat split; [done|done|]. left. cbn [set_offset total_number offset
      current_batch_size]. lia.
  - destruct Hd as [Hd|(Hz & r & Hr & Hnil)]; [lia|].
    rewrite next_fetch by done. cbn zeta.
    rewrite Hz, Z.add_0_r, Hr, Hnil.
    eexists _, _. split; [reflexivity|].
    split; [done|]. split; [done|].
    split; [cbn; by apply lookup_app_l_Some|].
    split; [done|]. right. split; [done|]. exists r. split; [|done].
    rewrite <- Hr. cbn [loaded es_conn offset].
    rewrite (Hun _ (log w)). f_equal.
    by eapply batch_request_stable.
Qed.

Lemma stop_drained c w c' w' tmpl :
  heap w !! body c = Some tmpl →
  __next__ (c, w) = (Raise StopIteration, (c', w')) ∨
  __iter__ (c, w) = (Raise StopIteration, (c', w')) →
  es_conn c' = es_conn c ∧ heap w' !! body c' = Some tmpl ∧
  (unchanged (es_conn c) → drained c' w').
Proof.
  intros Ht [Hn|Hi].
  - destruct (decide (inbtach_idx c < current_batch_size c)%nat) as [Hf|Hs].
    { destruct (next_fast c w Hf) as (r & c1 & Hr & Hne & _). congruence. }
    apply Nat.nlt_ge in Hs.
    destruct (Z.le_gt_cases (total_number c)
                (offset c + Z.of_nat (current_batch_size c))) as [Hge|Hlt].
    + rewrite next_stop in Hn by done. injection Hn as <- <-.
      split; [done|]. split; [done|]. intros _. split; [done|]. left.
      cbn [set_offset total_number offset current_batch_size]. lia.
    + rewrite next_fetch in Hn by done. cbn zeta in Hn.
      destruct (es_conn c _ _) as [r|info] eqn:Hr; [|discriminate].
      destruct (resp_hits r) as [|d ds] eqn:Hnil; [|discriminate].
      injection Hn as <- <-.
      split; [done|]. split; [cbn; by apply lookup_app_l_Some|].
      intros Hun. split; [done|]. right. split; [done|]. exists r.
      split; [|done]. rewrite <- Hr. cbn [loaded es_conn offset].
      rewrite (Hun _ (log w)). f_equal.
      by eapply batch_request_stable.
  - rewrite __iter___eq in Hi.
    destruct (Z.le_gt_cases (total_number (restarted c))
                (offset (restarted c)
                 + Z.of_nat (current_batch_size (restarted c)))) as [Hge|Hlt].
    + rewrite fetch_stop in Hi by done. injection Hi as <- <-.
      split; [done|]. split; [done|]. intros _. split; [done|]. by left.
    + rewrite fetch_go in Hi by done. cbn zeta in Hi.
      by destruct (es_conn _ _ _).
Qed.

Lemma drained_nexts n c w tmpl :
  unchanged (es_conn c) → heap w !! body c = Some tmpl → drained c w →
  fst (nexts n (c, w)) = replicate n (Raise StopIteration).
Proof.
  revert c w. induction n as [|n IH]; intros c w Hun Ht Hd; [done|].
  destruct (drained_next c w tmpl Hun Ht Hd) as (c' & w' & Hn & He & Hb & Ht' & Hd').
  cbn [nexts]. rewrite Hn.
  specialize (IH c' w'). rewrite He in IH. specialize (IH Hun Ht' Hd').
  destruct (nexts n (c', w')) as [rs s'']. cbn in *. by rewrite IH.
Qed.

(** C7: once [__next__] (or [__iter__]) has raised [StopIteration], every
    further [__next__] against an unchanged backend raises [StopIteration]
    again: it neither yields a document nor raises another error.  The
    query body is a live dict object ([tmpl]). *)
Theorem stop_iteration_sticky c w c' w' tmpl n :
  unchanged (es_conn c) →
  heap w !! body c = Some tmpl →
  __next__ (c, w) = (Raise StopIteration, (c', w')) ∨
  __iter__ (c, w) = (Raise StopIteration, (c', w')) →
  fst (nexts n (c', w')) = replicate n (Raise StopIteration).
Proof.
  intros Hun Ht Hstop.
  destruct (stop_drained c w c' w' tmpl Ht Hstop) as (He & Ht' & Hd).
  apply (drained_nexts n c' w' tmpl); [by rewrite He | done | by apply Hd].
Qed.

(** A stale total: the cursor was built when five documents matched, and
    the index is empty by the time it is used. *)
Lemma stop_iteration_sticky_witness :
  let es := static_index [] in
  let c := mkESCursor es "bank" "_doc" 0%nat 5 5 0 0%nat 0%nat None in
  let w := world_with default_query_body in
  let s' := snd (__next__ (c, w)) in
  unchanged es ∧
  heap w !! body c = Some default_query_body ∧
  (__next__ (c, w) = (Raise StopIteration, s') ∨
   __iter__ (c, w) = (Raise StopIteration, s')) ∧
  fst (nexts 4 s') = replicate 4 (Raise StopIteration).
Proof.
  intros es c w s'.
  assert (Hun : unchanged es) by (intros h1 h2 req; reflexivity).
  assert (Hn : __next__ (c, w) = (Raise StopIteration, (fst s', snd s')))
    by (vm_compute; reflexivity).
  split; [exact Hun|]. split; [reflexivity|]. split; [left; exact Hn|].
  exact (stop_iteration_sticky c w (fst s') (snd s') default_query_body 4
           Hun eq_refl (or_introl Hn)).
Defined.

(** ** The query body is only read *)

Lemma fetch_frame c w :
  ∃ h', body (fst (snd (_fetch_next_batch (c, w)))) = body c ∧
        heap (snd (snd (_fetch_next_batch (c, w)))) = heap w ++ h'.
Proof.
  destruct (Z.le_gt_cases (total_number c)
              (offset c + Z.of_nat (current_batch_size c))) as [Hge|Hlt].
  - rewrite fetch_stop by done. exists []. by rewrite app_nil_r.
  - rewrite fetch_go by done. cbn zeta.
    destruct (es_conn c _ _); by eexists [_].
Qed.

Lemma iter_frame c w :
  ∃ h', body (fst (snd (__iter__ (c, w)))) = body c ∧
        heap (snd (snd (__iter__ (c, w)))) = heap w ++ h'.
Proof. rewrite __iter___eq. apply (fetch_frame (restarted c)). Qed.

Lemma next_frame c w :
  ∃ h', body (fst (snd (__next__ (c, w)))) = body c ∧
        heap (snd (snd (__next__ (c, w)))) = heap w ++ h'.
Proof.
  destruct (decide (inbtach_idx c < current_batch_size c)%nat) as [Hf|Hs].
  { destruct (next_fast c w Hf) as (r & c1 & -> & _ & [->| ->]);
      exists []; by rewrite app_nil_r. }
  apply Nat.nlt_ge in Hs.
  destruct (Z.le_gt_cases (total_number c)
              (offset c + Z.of_nat (current_batch_size c))) as [Hge|Hlt].
  - rewrite next_stop by done. exists []. by rewrite app_nil_r.
  - rewrite next_fetch by done. cbn zeta.
    destruct (es_conn c _ _) as [r|info]; [|by eexists [_]].
    destruct (resp_hits r); by eexists [_].
Qed.

Lemma run_ops_frame ops c w :
  ∃ h', body (fst (run_ops ops (c, w))) = body c ∧
        heap (snd (run_ops ops (c, w))) = heap w ++ h'.
Proof.
  revert c w. induction ops as [|o ops IH]; intros c w.
  { exists []. by rewrite app_nil_r. }
  assert (∃ h1, body (fst (run_op o (c, w))) = body c ∧
                heap (snd (run_op o (c, w))) = heap w ++ h1)
    as (h1 & Hb1 & Hh1)
    by (destruct o; [apply iter_frame | apply next_frame]).
  cbn [run_ops foldl]. destruct (run_op o (c, w)) as [c1 w1].
  destruct (IH c1 w1) as (h2 & Hb2 & Hh2). exists (h1 ++ h2).
  unfold run_ops in *. cbn [fst snd] in *.
  by rewrite Hb2, Hh2, Hh1, Hb1, app_assoc.
Qed.

(** C9: the cursor never mutates the caller's query body.  The dict [d]
    at the reference [l] handed to the constructor is still [d] after
    construction, and after any sequence of restarts and next-item calls;
    the cursor keeps pointing at it. *)
Theorem template_never_mutated es i dt l tn bs w d ops :
  heap w !! l = Some d →
  heap (snd (__init__ es i dt l tn bs w)) !! l = Some d ∧
  ∀ c, fst (__init__ es i dt l tn bs w) = Return c →
    let s := run_ops ops (c, snd (__init__ es i dt l tn bs w)) in
    body c = l ∧ body (fst s) = l ∧ heap (snd s) !! l = Some d.
Proof.
  intros Hd. rewrite __init___eq. cbn zeta. cbn [fst snd heap].
  assert (Hd1 : (heap w ++ [count_body (deref (heap w) l)]) !! l = Some d)
    by by apply lookup_app_l_Some.
  split; [exact Hd1|]. intros c Hc.
  assert (Hb : body c = l).
  { destruct (es _ _); [|discriminate]. by injection Hc as <-. }
  split; [exact Hb|].
  match goal with |- context [run_ops ops (c, ?w1)] =>
    destruct (run_ops_frame ops c w1) as (h' & Hb' & Hh') end.
  rewrite Hb', Hh'. split; [exact Hb|]. by apply lookup_app_l_Some.
Qed.

Lemma template_never_mutated_witness :
  let es := static_index (numbered 5) in
  let w := world_with default_query_body in
  let ops := [Restart; NextItem; NextItem; NextItem; Restart; NextItem;
              NextItem; NextItem; NextItem; NextItem; NextItem; NextItem] in
  heap w !! 0%nat = Some default_query_body ∧
  heap (snd (__init__ es "bank" "_doc" 0%nat None 2 w)) !! 0%nat
    = Some default_query_body ∧
  ∀ c, fst (__init__ es "bank" "_doc" 0%nat None 2 w) = Return c →
    let s := run_ops ops (c, snd (__init__ es "bank" "_doc" 0%nat None 2 w)) in
    body c = 0%nat ∧ body (fst s) = 0%nat ∧
    heap (snd s) !! 0%nat = Some default_query_body.
Proof.
  intros es w ops. split; [reflexivity|].
  exact (template_never_mutated es "bank" "_doc" 0%nat None 2 w
           default_query_body ops eq_refl).
Defined.

(** ** Windowing *)

Lemma body_batch_from tmpl o n : body_batch tmpl o n !! "from" = Some (JInt o).
Proof. unfold body_batch. by rewrite lookup_insert_ne, lookup_insert_eq. Qed.

Lemma body_batch_size tmpl o n : body_batch tmpl o n !! "size" = Some (JInt n).
Proof. unfold body_batch. by rewrite lookup_insert_eq. Qed.

Lemma body_batch_other tmpl o n k :
  k ≠ "from" → k ≠ "size" → body_batch tmpl o n !! k = tmpl !! k.
Proof. intros. unfold body_batch. by rewrite !lookup_insert_ne. Qed.

Lemma batch_request_window c w tmpl o :
  heap w !! body c = Some tmpl → batch_request c w o = window_request c tmpl o.
Proof. intros H. unfold batch_request, window_request, deref. by rewrite H. Qed.

Lemma fetched_world_template c w o res tmpl :
  heap w !! body c = Some tmpl →
  heap (fetched_world c w o res) !! body c = Some tmpl.
Proof. intros H. cbn. by apply lookup_app_l_Some. Qed.

(** The two ways a step ends a run of fetches: with no request, or with
    one last request. *)
Ltac no_call :=
  exists []; rewrite app_nil_r;
  split; [try done | split; [constructor |
    let Hk := fresh in intros ? ? Hk; by rewrite lookup_nil in Hk]].
Ltac last_call :=
  eexists [_];
  split; [reflexivity | split; [repeat constructor |
    let Hj := fresh in intros ? ? _ Hj; cbn in Hj; lia]].

(** What the loop of a pass adds to the log, from any state on. *)
Lemma for_each_windowing fuel acc c w tmpl :
  heap w !! body c = Some tmpl →
  ∃ calls,
    log (snd (final (for_each fuel acc (c, w)))) = log w ++ calls ∧
    windowing (window_request c tmpl)
      (offset c + Z.of_nat (current_batch_size c)) calls ∧
    ∀ j k, calls !! j = Some k → (S j < length calls)%nat → window_of k ≠ [].
Proof.
  revert acc c w. induction fuel as [|fuel IH]; intros acc c w Ht.
  { no_call. }
  cbn [for_each].
  destruct (decide (inbtach_idx c < current_batch_size c)%nat) as [Hf|Hs].
  - destruct (next_fast c w Hf) as (r & c1 & -> & Hne & Hc1).
    assert (Hsame : window_request c1 tmpl = window_request c tmpl ∧
                    offset c1 + Z.of_nat (current_batch_size c1)
                      = offset c + Z.of_nat (current_batch_size c) ∧
                    body c1 = body c) by (by destruct Hc1 as [->| ->]).
    destruct Hsame as (Hw & Ho & Hb).
    destruct r as [d|e].
    + destruct (IH (acc ++ [d]) c1 w) as (calls & Hl & Hwin & Hne');
        [by rewrite Hb|].
      exists calls. by rewrite Hw, Ho in Hwin.
    + no_call. by destruct e.
  - apply Nat.nlt_ge in Hs.
    destruct (Z.le_gt_cases (total_number c)
                (offset c + Z.of_nat (current_batch_size c))) as [Hge|Hlt].
    + rewrite next_stop by done. no_call.
    + rewrite next_fetch by done. cbn zeta.
      rewrite (batch_request_window c w tmpl) by done.
      set (o := offset c + Z.of_nat (current_batch_size c)).
      unfold fetched_world. rewrite (batch_request_window c w tmpl) by done.
      destruct (es_conn c _ _) as [r|info] eqn:Hr.
      * destruct (resp_hits r) as [|d ds] eqn:Hh.
        { last_call. }
        match goal with |- context [for_each fuel ?a (?c1, ?w1)] =>
          destruct (IH a c1 w1) as (calls & Hl & Hwin & Hne');
            [cbn; by apply lookup_app_l_Some|] end.
        eexists (_ :: calls). split; [rewrite Hl; cbn; by rewrite <- app_assoc|].
        split.
        { apply windowing_hits. cbn in Hwin. by rewrite Hh. }
        intros [|j] k Hk Hj; cbn in Hk, Hj.
        -- injection Hk as <-. cbn. by rewrite Hh.
        -- apply (Hne' j k Hk). lia.
      * last_call.
Qed.

Lemma pass_windowing_ind fuel c w tmpl :
  heap w !! body c = Some tmpl →
  ∃ calls,
    log (snd (final (pass fuel (c, w)))) = log w ++ calls ∧
    windowing (window_request c tmpl) 0 calls ∧
    ∀ j k, calls !! S j = Some k → (S (S j) < length calls)%nat →
           window_of k ≠ [].
Proof.
  intros Ht. unfold pass. rewrite __iter___eq.
  destruct (Z.le_gt_cases (total_number (restarted c))
              (offset (restarted c)
               + Z.of_nat (current_batch_size (restarted c)))) as [Hge|Hlt].
  { rewrite fetch_stop by done. no_call. }
  rewrite fetch_go by done. cbn zeta.
  rewrite (batch_request_window (restarted c) w tmpl) by done.
  unfold fetched_world.
  rewrite (batch_request_window (restarted c) w tmpl) by done.
  change (offset (restarted c) + Z.of_nat (current_batch_size (restarted c)))
    with 0.
  change (window_request (restarted c) tmpl) with (window_request c tmpl).
  destruct (es_conn _ _ _) as [r|info] eqn:Hr.
  - match goal with |- context [for_each fuel ?a (?c1, ?w1)] =>
      destruct (for_each_windowing fuel a c1 w1 tmpl)
        as (calls & Hl & Hwin & Hne'); [cbn; by apply lookup_app_l_Some|] end.
    eexists (_ :: calls). split; [rewrite Hl; cbn; by rewrite <- app_assoc|].
    split; [apply windowing_hits; exact Hwin|].
    intros j k Hk Hj. cbn in Hk, Hj. apply (Hne' j k Hk). lia.
  - last_call.
Qed.

Lemma windowing_lookup req_at o calls j k :
  windowing req_at o calls → calls !! j = Some k →
  ∃ oj, o ≤ oj ∧ call_req k = req_at oj ∧
    ∀ k', calls !! S j = Some k' →
      ∃ r, call_res k = Hits r ∧
           call_req k' = req_at (oj + Z.of_nat (length (resp_hits r))).
Proof.
  intros Hw. revert j k.
  induction Hw as [o|o r rest Hw IH|o info]; intros j k Hk.
  - by rewrite lookup_nil in Hk.
  - destruct j as [|j]; cbn in Hk.
    + injection Hk as <-. exists o. split; [lia|]. split; [done|].
      intros k' Hk'. cbn in Hk'. exists r. split; [done|].
      destruct (IH 0%nat k' Hk') as (o1 & _ & Hreq & _).
      inversion Hw; subst; cbn in Hk'; try discriminate;
        by injection Hk' as <-.
    + destruct (IH j k Hk) as (oj & Hle & Hreq & Hnext).
      exists oj. split; [lia|]. by split.
  - destruct j as [|j]; cbn in Hk; [|done].
    injection Hk as <-. exists o. split; [lia|]. split; [done|].
    intros k' Hk'. by cbn in Hk'.
Qed.

Lemma windowing_head req_at o k rest :
  windowing req_at o (k :: rest) → call_req k = req_at o.
Proof. by inversion 1. Qed.

(** C5 (as amended): in a pass, every windowed request carries the stored
    query body merged with ["from"] = the offset and ["size"] = the batch
    size (the paging fields override the template's); the first offset is
    0 and each further offset is the previous one plus the actual size of
    the previous window.  The offset therefore never decreases, and it
    strictly increases after every window but the first: an empty first
    window is requested once more at offset 0. *)
Theorem pass_windowing fuel c w tmpl :
  heap w !! body c = Some tmpl →
  ∃ calls,
    log (snd (final (pass fuel (c, w)))) = log w ++ calls ∧
    (∀ k, calls !! 0%nat = Some k →
       call_req k
         = mkRequest (index c) (doc_type c)
             (<["size" := JInt (batch_size c)]> (<["from" := JInt 0]> tmpl))) ∧
    ∀ j k, calls !! j = Some k →
      ∃ o, 0 ≤ o ∧
        call_req k
          = mkRequest (index c) (doc_type c)
              (<["size" := JInt (batch_size c)]> (<["from" := JInt o]> tmpl)) ∧
        ∀ k', calls !! S j = Some k' →
          ∃ r, call_res k = Hits r ∧
            call_req k'
              = mkRequest (index c) (doc_type c)
                  (<["size" := JInt (batch_size c)]>
                     (<["from" := JInt (o + Z.of_nat (length (resp_hits r)))]>
                        tmpl)) ∧
            (j ≠ 0%nat → o < o + Z.of_nat (length (resp_hits r))).
Proof.
  intros Ht.
  destruct (pass_windowing_ind fuel c w tmpl Ht) as (calls & Hl & Hw & Hne).
  exists calls. split; [exact Hl|]. split.
  { intros k Hk. destruct calls as [|k0 rest]; [done|].
    injection Hk as ->. apply (windowing_head _ _ _ _ Hw). }
  intros j k Hk.
  destruct (windowing_lookup _ _ _ _ _ Hw Hk) as (o & Ho & Hreq & Hnext).
  exists o. split; [exact Ho|]. split; [exact Hreq|].
  intros k' Hk'. destruct (Hnext k' Hk') as (r & Hr & Hreq').
  exists r. split; [exact Hr|]. split; [exact Hreq'|].
  intros Hj. destruct j as [|j]; [done|].
  apply lookup_lt_Some in Hk' as Hlen.
  specialize (Hne j k Hk Hlen). unfold window_of in Hne. rewrite Hr in Hne.
  destruct (resp_hits r); [done|]. cbn [length]. lia.
Qed.

(** Scenario A, seen from the log. *)
Lemma pass_windowing_witness :
  let c := mkESCursor (static_index (numbered 25)) "bank" "_doc" 0%nat
             25 10 0 0%nat 0%nat None in
  let w := world_with default_query_body in
  heap w !! body c = Some default_query_body ∧
  ∃ calls,
    log (snd (final (pass 30 (c, w)))) = log w ++ calls ∧
    (∀ k, calls !! 0%nat = Some k →
       call_req k
         = mkRequest (index c) (doc_type c)
             (<["size" := JInt (batch_size c)]>
                (<["from" := JInt 0]> default_query_body))) ∧
    ∀ j k, calls !! j = Some k →
      ∃ o, 0 ≤ o ∧
        call_req k
          = mkRequest (index c) (doc_type c)
              (<["size" := JInt (batch_size c)]>
                 (<["from" := JInt o]> default_query_body)) ∧
        ∀ k', calls !! S j = Some k' →
          ∃ r, call_res k = Hits r ∧
            call_req k'
              = mkRequest (index c) (doc_type c)
                  (<["size" := JInt (batch_size c)]>
                     (<["from" := JInt (o + Z.of_nat (length (resp_hits r)))]>
                        default_query_body)) ∧
            (j ≠ 0%nat → o < o + Z.of_nat (length (resp_hits r))).
Proof.
  intros c w. split; [reflexivity|].
  exact (pass_windowing 30 c w default_query_body eq_refl).
Defined.

Lemma repeated_offset_not_strict calls o o' :
  from_of <$> calls = [Some (JInt o); Some (JInt o')] → ¬ o < o' →
  ¬ strictly_increasing_offsets calls.
Proof.
  intros Hf Hno Hs.
  destruct calls as [|k [|k' [|]]]; try discriminate Hf.
  injection Hf as Hk Hk'.
  exact (Hno (Hs 0%nat k k' o o' eq_refl eq_refl Hk Hk')).
Qed.

(** C5 fails as stated: when the first window comes back empty (here the
    five matching documents were deleted after the count), the first
    [__next__] requests offset 0 again. *)
Lemma offsets_not_strict_counterexample :
  ∃ s, scenario (emptied_after_count (numbered 5)) None 2 = Some s ∧
    total_number (fst s) = 5 ∧
    from_of <$> calls_since 1 (final (pass 10 s))
      = [Some (JInt 0); Some (JInt 0)] ∧
    window_of <$> calls_since 1 (final (pass 10 s)) = [[]; []] ∧
    ending (pass 10 s) = Exhausted ∧
    ¬ strictly_increasing_offsets (calls_since 1 (final (pass 10 s))).
Proof.
  eexists. split; [reflexivity|].
  assert (Hf : from_of <$> calls_since 1
                 (final (pass 10
                    (mkESCursor (emptied_after_count (numbered 5)) "bank"
                       default_doc_type 0%nat 5 2 0 0%nat 0%nat None,
                     mkWorld
                       [default_query_body;
                        <["size" := JInt 0]> default_query_body]
                       [mkCall
                          (mkRequest "bank" default_doc_type
                             (<["size" := JInt 0]> default_query_body))
                          (Hits (mkResponse 5 []))])))
               = [Some (JInt 0); Some (JInt 0)])
    by (vm_compute; reflexivity).
  split; [reflexivity|]. split; [exact Hf|].
  split; [vm_compute; reflexivity|]. split; [vm_compute; reflexivity|].
  apply (repeated_offset_not_strict _ 0 0 Hf). lia.
Qed.

(** ** Draining a window *)

Lemma set_inbtach_idx_same c : set_inbtach_idx (inbtach_idx c) c = c.
Proof. by destruct c. Qed.

Lemma nexts_window m c w h :
  hits c = Some h → current_batch_size c = length h →
  (inbtach_idx c + m = length h)%nat →
  nexts m (c, w)
    = (Return <$> drop (inbtach_idx c) h, (set_inbtach_idx (length h) c, w)).
Proof.
  revert c. induction m as [|m IH]; intros c Hh Hn Hi.
  - rewrite Nat.add_0_r in Hi. rewrite drop_ge by lia.
    by rewrite <- Hi, set_inbtach_idx_same.
  - destruct (lookup_lt_is_Some_2 h (inbtach_idx c)) as [d Hd]; [lia|].
    cbn [nexts]. rewrite (next_in_window c w h d) by done.
    rewrite (IH (set_inbtach_idx (inbtach_idx c + 1) c)) by (cbn; done || lia).
    cbn [set_inbtach_idx inbtach_idx]. rewrite (drop_S _ _ _ Hd).
    by rewrite Nat.add_1_r.
Qed.

Lemma for_each_window m fuel acc c w h :
  hits c = Some h → current_batch_size c = length h →
  (inbtach_idx c + m = length h)%nat →
  for_each (m + fuel) acc (c, w)
    = for_each fuel (acc ++ drop (inbtach_idx c) h)
        (set_inbtach_idx (length h) c, w).
Proof.
  revert acc c. induction m as [|m IH]; intros acc c Hh Hn Hi.
  - rewrite Nat.add_0_r in Hi. rewrite drop_ge by lia.
    by rewrite <- Hi, set_inbtach_idx_same, app_nil_r.
  - destruct (lookup_lt_is_Some_2 h (inbtach_idx c)) as [d Hd]; [lia|].
    cbn [for_each Nat.add]. rewrite (next_in_window c w h d) by done.
    rewrite (IH _ (set_inbtach_idx (inbtach_idx c + 1) c))
      by (cbn; done || lia).
    cbn [set_inbtach_idx inbtach_idx]. rewrite (drop_S _ _ _ Hd).
    by rewrite Nat.add_1_r, <- app_assoc.
Qed.

(** ** A short window *)

(** C4 (as amended): when a windowed fetch returns a short window (fewer
    documents than the batch size, but at least one) and the offset plus
    its size is still below the effective total, the cursor yields exactly
    those documents without any request, and the next [__next__] does not
    signal exhaustion by itself: it issues a further windowed request at
    the offset advanced by the short window's size, and yields the first
    document of what comes back; only an empty answer makes it raise
    [StopIteration]. *)
Theorem short_window_refetch c w h :
  hits c = Some h → current_batch_size c = length h →
  inbtach_idx c = 0%nat →
  (0 < length h)%nat → Z.of_nat (length h) < batch_size c →
  offset c + Z.of_nat (length h) < total_number c →
  let o := offset c + Z.of_nat (length h) in
  let res := es_conn c (log w) (batch_request c w o) in
  ∃ c1,
    nexts (length h) (c, w) = (Return <$> h, (c1, w)) ∧
    log (snd (snd (__next__ (c1, w))))
      = log w ++ [mkCall (batch_request c w o) res] ∧
    from_of (mkCall (batch_request c w o) res) = Some (JInt o) ∧
    fst (__next__ (c1, w))
      = match res with
        | Hits r =>
            match resp_hits r with
            | d :: _ => Return d
            | [] => Raise StopIteration
            end
        | Fault info => Raise (BackendError info)
        end.
Proof.
  intros Hh Hn Hi Hpos Hshort Hlt o res.
  exists (set_inbtach_idx (length h) c).
  split.
  { rewrite (nexts_window (length h) c w h) by (done || lia).
    by rewrite Hi, drop_0. }
  rewrite next_fetch by (cbn; lia || (rewrite Hn; lia)).
  cbn zeta. cbn [set_inbtach_idx offset current_batch_size es_conn].
  rewrite Hn. fold o.
  change (batch_request (set_inbtach_idx (length h) c) w o)
    with (batch_request c w o).
  change (fetched_world (set_inbtach_idx (length h) c) w o)
    with (fetched_world c w o).
  fold res. split; [|split; [apply body_batch_from|]].
  - destruct res as [r|info]; [destruct (resp_hits r)|]; reflexivity.
  - destruct res as [r|info]; [destruct (resp_hits r)|]; reflexivity.
Qed.

(** Scenario D, at the moment the short window of three documents has been
    stored: they are yielded, and the next call asks for offset 13. *)
Lemma short_window_refetch_witness :
  let es := short_at 10 3 (static_index (numbered 25)) in
  let h := [JInt 10; JInt 11; JInt 12] in
  let c := mkESCursor es "bank" default_doc_type 0%nat 25 10 10 0%nat 3%nat
             (Some h) in
  let w := world_with default_query_body in
  hits c = Some h ∧ current_batch_size c = length h ∧
  inbtach_idx c = 0%nat ∧ (0 < length h)%nat ∧
  Z.of_nat (length h) < batch_size c ∧
  offset c + Z.of_nat (length h) < total_number c ∧
  ∃ c1,
    nexts 3 (c, w) = (Return <$> h, (c1, w)) ∧
    log (snd (snd (__next__ (c1, w))))
      = log w ++ [mkCall (batch_request c w 13)
                    (es (log w) (batch_request c w 13))] ∧
    from_of (mkCall (batch_request c w 13) (es (log w) (batch_request c w 13)))
      = Some (JInt 13) ∧
    fst (__next__ (c1, w)) = Return (JInt 13).
Proof.
  intros es h c w.
  split; [reflexivity|]. split; [reflexivity|]. split; [reflexivity|].
  split; [simpl; lia|]. split; [simpl; lia|]. split; [simpl; lia|].
  destruct (short_window_refetch c w h eq_refl eq_refl eq_refl)
    as (c1 & H1 & H2 & H3 & H4); [simpl; lia | simpl; lia | simpl; lia |].
  exists c1. split; [exact H1|]. split; [exact H2|]. split; [exact H3|].
  rewrite H4. vm_compute. reflexivity.
Defined.

(** C4 fails as stated (Scenario D): the window at offset 10 comes back
    with 3 documents instead of 10; the cursor does not stop after them
    but asks for offsets 13 and 23 and yields all 25 documents. *)
Lemma short_window_counterexample :
  ∃ s, scenario (short_at 10 3 (static_index (numbered 25))) None 10 = Some s ∧
    total_number (fst s) = 25 ∧ batch_size (fst s) = 10 ∧
    from_of <$> calls_since 1 (final (pass 40 s))
      = [Some (JInt 0); Some (JInt 10); Some (JInt 13); Some (JInt 23)] ∧
    length ∘ window_of <$> calls_since 1 (final (pass 40 s))
      = [10; 3; 10; 2]%nat ∧
    yielded (pass 40 s) = numbered 25 ∧
    ending (pass 40 s) = Exhausted ∧
    ¬ (yielded (pass 40 s) = numbered 13 ∧
       length (calls_since 1 (final (pass 40 s))) = 2%nat).
Proof.
  eexists. split; [reflexivity|].
  split; [reflexivity|]. split; [reflexivity|].
  split; [vm_compute; reflexivity|]. split; [vm_compute; reflexivity|].
  split; [vm_compute; reflexivity|]. split; [vm_compute; reflexivity|].
  intros [_ H]. vm_compute in H. discriminate H.
Qed.

(** ** Full windows *)

Lemma window_offsets_nil o total b :
  1 ≤ b → total ≤ o → window_offsets o total b = [].
Proof.
  intros Hb Ho. unfold window_offsets.
  replace (Z.to_nat ((total - o + b - 1) / b)) with 0%nat; [done|].
  assert ((total - o + b - 1) / b ≤ 0); [|lia].
  apply Z.lt_succ_r, Z.div_lt_upper_bound; lia.
Qed.

Lemma window_offsets_cons o total b :
  1 ≤ b → o < total →
  window_offsets o total b = o :: window_offsets (o + b) total b.
Proof.
  intros Hb Ho. unfold window_offsets.
  replace (total - o + b - 1) with ((total - (o + b) + b - 1) + 1 * b) by lia.
  rewrite Z.div_add by lia.
  assert (0 ≤ (total - (o + b) + b - 1) / b) by (apply Z.div_pos; lia).
  rewrite Z2Nat.inj_add, Nat.add_comm by lia.
  change (Z.to_nat 1) with 1%nat. cbn [Nat.add seq fmap list_fmap].
  f_equal; [lia|]. rewrite <- fmap_S_seq, <- list_fmap_compose.
  apply list_fmap_ext. intros _ j _. cbn. lia.
Qed.

(** The loop of a pass, from any point of a window on, against a backend
    that returns full windows: [n] bounds the number of windows left. *)
Lemma for_each_full n : ∀ fuel acc c w h tmpl,
  heap w !! body c = Some tmpl → 1 ≤ batch_size c → full_windows c tmpl →
  hits c = Some h → current_batch_size c = length h →
  (inbtach_idx c ≤ length h)%nat →
  (total_number c ≤ offset c + Z.of_nat (length h) ∨
   ∃ j : nat, offset c + Z.of_nat (length h) = Z.of_nat j * batch_size c) →
  offset c + Z.of_nat (length h) ≤ total_number c →
  total_number c - (offset c + Z.of_nat (length h))
    ≤ Z.of_nat n * batch_size c →
  (length h - inbtach_idx c
   + Z.to_nat (total_number c - (offset c + Z.of_nat (length h))) < fuel)%nat →
  ∃ calls s',
    for_each fuel acc (c, w)
      = mkPass (acc ++ drop (inbtach_idx c) h ++ concat (window_of <$> calls))
          Exhausted s' ∧
    log (snd s') = log w ++ calls ∧
    call_req <$> calls
      = window_request c tmpl
          <$> window_offsets (offset c + Z.of_nat (length h))
                (total_number c) (batch_size c) ∧
    (λ k, Z.of_nat (length (window_of k))) <$> calls
      = (λ o, Z.min (batch_size c) (total_number c - o))
          <$> window_offsets (offset c + Z.of_nat (length h))
                (total_number c) (batch_size c) ∧
    Z.of_nat (length (concat (window_of <$> calls)))
      = total_number c - (offset c + Z.of_nat (length h)) ∧
    answered (es_conn c) calls.
Proof.
  induction n as [|n IH];
    intros fuel acc c w h tmpl Ht Hb Hfull Hh Hcbs Hidx Hoff Hle Hn Hfuel.
  - (* no window left: the offset has reached the total *)
    set (m := (length h - inbtach_idx c)%nat).
    replace fuel with (m + S (fuel - m - 1))%nat by lia.
    rewrite (for_each_window m _ acc c w h) by (done || lia).
    cbn [for_each]. rewrite next_stop by (cbn; rewrite ?Hcbs; lia).
    exists [], (set_offset
                  (offset c + Z.of_nat (current_batch_size c))
                  (set_inbtach_idx (length h) c), w).
    rewrite window_offsets_nil by lia. cbn. rewrite !app_nil_r.
    repeat split; [lia | constructor].
  - set (m := (length h - inbtach_idx c)%nat).
    set (o := offset c + Z.of_nat (length h)) in *.
    replace fuel with (m + S (fuel - m - 1))%nat by lia.
    rewrite (for_each_window m _ acc c w h) by (done || lia).
    cbn [for_each].
    destruct (Z.le_gt_cases (total_number c) o) as [Hge|Hlt].
    { rewrite next_stop by (cbn; rewrite ?Hcbs; lia).
      exists [], (set_offset
                    (offset c + Z.of_nat (current_batch_size c))
                    (set_inbtach_idx (length h) c), w).
      rewrite window_offsets_nil by lia. cbn. rewrite !app_nil_r.
      repeat split; [lia | constructor]. }
    rewrite next_fetch by (cbn; rewrite ?Hcbs; fold o; lia).
    cbn zeta. cbn [set_inbtach_idx offset current_batch_size es_conn].
    rewrite Hcbs. fold o.
    change (batch_request (set_inbtach_idx (length h) c) w o)
      with (batch_request c w o).
    change (fetched_world (set_inbtach_idx (length h) c) w o)
      with (fetched_world c w o).
    rewrite (batch_request_window c w tmpl) by done.
    destruct Hoff as [Hoff|[j Hj]]; [lia|].
    destruct (Hfull (log w) j) as (r & Hr & Hlen); [lia|].
    rewrite <- Hj in Hr, Hlen. rewrite Hr.
    destruct (resp_hits r) as [|d ds] eqn:Hds; [cbn in Hlen; lia|].
    set (c1 := set_inbtach_idx 1 _). set (w1 := fetched_world c w o (Hits r)).
    destruct (IH (fuel - m - 1)%nat ((acc ++ drop (inbtach_idx c) h) ++ [d])
                c1 w1 (d :: ds) tmpl)
      as (calls & s' & Hrun & Hlog & Hreq & Hsz & Hcat & Hans).
    + exact (fetched_world_template c w o _ tmpl Ht).
    + exact Hb.
    + exact Hfull.
    + reflexivity.
    + reflexivity.
    + cbn. lia.
    + cbn [c1 set_inbtach_idx loaded offset total_number batch_size].
      destruct (Z.min_spec (batch_size c) (total_number c - o))
        as [[_ Hm]|[_ Hm]]; rewrite Hm in Hlen.
      * right. exists (S j). lia.
      * left. lia.
    + cbn [c1 set_inbtach_idx loaded offset total_number]. lia.
    + cbn [c1 set_inbtach_idx loaded offset total_number batch_size]. lia.
    + cbn [c1 set_inbtach_idx loaded offset total_number inbtach_idx].
      cbn [length] in *. lia.
    + cbn [c1 set_inbtach_idx loaded offset total_number batch_size
           inbtach_idx] in Hrun, Hreq, Hsz, Hcat.
      change (window_request c1 tmpl) with (window_request c tmpl) in Hreq.
      assert (Hoffs : window_offsets (o + Z.of_nat (length (d :: ds)))
                        (total_number c) (batch_size c)
                      = window_offsets (o + batch_size c)
                          (total_number c) (batch_size c)).
      { destruct (Z.min_spec (batch_size c) (total_number c - o))
          as [[_ Hm]|[_ Hm]]; rewrite Hm in Hlen.
        - by rewrite Hlen.
        - rewrite !window_offsets_nil by lia. done. }
      rewrite Hoffs in Hreq, Hsz.
      exists (mkCall (window_request c tmpl o) (Hits r) :: calls), s'.
      rewrite (window_offsets_cons o) by lia.
      split.
      { rewrite Hrun. f_equal. cbn. rewrite Hds, drop_0.
        by rewrite <- !app_assoc. }
      split.
      { rewrite Hlog. unfold w1, fetched_world. cbn [log].
        rewrite (batch_request_window c w tmpl) by done.
        by rewrite <- app_assoc. }
      split; [cbn; by rewrite Hreq|].
      split; [cbn; rewrite Hsz, Hds; f_equal; exact Hlen|].
      split; [cbn; rewrite Hds, length_app; cbn [length] in *; lia|].
      constructor; [by exists (log w) | exact Hans].
Qed.

(** A pass against a backend that returns full windows. *)
Lemma pass_full_windows fuel c w tmpl :
  heap w !! body c = Some tmpl →
  1 ≤ batch_size c →
  full_windows c tmpl →
  (Z.to_nat (total_number c) < fuel)%nat →
  ∃ calls,
    log (snd (final (pass fuel (c, w)))) = log w ++ calls ∧
    call_req <$> calls
      = window_request c tmpl
          <$> window_offsets 0 (total_number c) (batch_size c) ∧
    (λ k, Z.of_nat (length (window_of k))) <$> calls
      = (λ o, Z.min (batch_size c) (total_number c - o))
          <$> window_offsets 0 (total_number c) (batch_size c) ∧
    yielded (pass fuel (c, w)) = concat (window_of <$> calls) ∧
    Z.of_nat (length (yielded (pass fuel (c, w)))) = Z.max 0 (total_number c) ∧
    ending (pass fuel (c, w))
      = (if 0 <? total_number c then Exhausted
         else Propagated StopIteration) ∧
    answered (es_conn c) calls.
Proof.
  intros Ht Hb Hfull Hfuel.
  destruct (Z.ltb_spec 0 (total_number c)) as [Hpos|Hnone].
  2: { rewrite pass_stop by done. exists [].
       rewrite window_offsets_nil by lia. cbn. rewrite app_nil_r.
       repeat split; [lia | constructor]. }
  unfold pass. rewrite __iter___eq, fetch_go by (cbn; lia). cbn zeta.
  change (offset (restarted c) + Z.of_nat (current_batch_size (restarted c)))
    with 0.
  rewrite (batch_request_window (restarted c) w tmpl) by done.
  change (window_request (restarted c) tmpl) with (window_request c tmpl).
  change (es_conn (restarted c)) with (es_conn c).
  destruct (Hfull (log w) 0%nat) as (r & Hr & Hlen); [lia|].
  cbn zeta in Hr, Hlen. rewrite Z.mul_0_l in Hr, Hlen. rewrite Hr.
  rewrite Z.sub_0_r in Hlen.
  remember (resp_hits r) as h eqn:Hh.
  set (c1 := loaded (restarted c) 0 h).
  set (w1 := fetched_world (restarted c) w 0 (Hits r)).
  destruct (for_each_full (Z.to_nat (total_number c)) fuel [] c1 w1 h tmpl)
    as (calls & s' & Hrun & Hlog & Hreq & Hsz & Hcat & Hans).
  - exact (fetched_world_template (restarted c) w 0 _ tmpl Ht).
  - exact Hb.
  - exact Hfull.
  - reflexivity.
  - reflexivity.
  - cbn. lia.
  - cbn [c1 loaded restarted offset total_number batch_size].
    destruct (Z.min_spec (batch_size c) (total_number c))
      as [[_ Hm]|[_ Hm]]; rewrite Hm in Hlen.
    + right. exists 1%nat. lia.
    + left. lia.
  - cbn [c1 loaded restarted offset total_number]. lia.
  - cbn [c1 loaded restarted offset total_number batch_size]. nia.
  - cbn [c1 loaded restarted offset total_number inbtach_idx]. lia.
  - cbn [c1 loaded restarted offset total_number batch_size inbtach_idx] in *.
    subst h.
    change (window_request c1 tmpl) with (window_request c tmpl) in Hreq.
    rewrite Z.add_0_l in Hreq, Hsz, Hcat.
    assert (Hoffs : window_offsets (Z.of_nat (length (resp_hits r)))
                      (total_number c)
                      (batch_size c)
                    = window_offsets (0 + batch_size c) (total_number c)
                        (batch_size c)).
    { destruct (Z.min_spec (batch_size c) (total_number c))
        as [[_ Hm]|[_ Hm]]; rewrite Hm in Hlen.
      - by rewrite Hlen.
      - rewrite !window_offsets_nil by lia. done. }
    rewrite Hoffs in Hreq, Hsz.
    exists (mkCall (window_request c tmpl 0) (Hits r) :: calls).
    rewrite (window_offsets_cons 0) by lia. rewrite Hrun. cbn [yielded ending final].
    split.
    { rewrite Hlog. unfold w1, fetched_world. cbn [log].
      rewrite (batch_request_window (restarted c) w tmpl) by done.
      by rewrite <- app_assoc. }
    split; [cbn; by rewrite Hreq|].
    split; [cbn; rewrite Hsz, Z.sub_0_r; f_equal; exact Hlen|].
    split; [by rewrite drop_0|].
    split; [rewrite drop_0; cbn; rewrite length_app; lia|].
    split; [done|].
    constructor; [by exists (log w) | exact Hans].
Qed.

(** C3: in a pass against a backend that returns the full window at every
    requested offset below the effective total ([batch_size] documents,
    the last window possibly smaller), the windowed requests are those for
    the offsets 0, [batch_size], 2 [batch_size], ... below the total, in
    order and once each; the documents yielded are the concatenation of
    the windows that came back, in order; their number is the effective
    total; and the pass ends on [StopIteration]. *)
Theorem full_windows_pass fuel c w tmpl :
  heap w !! body c = Some tmpl →
  1 ≤ batch_size c →
  full_windows c tmpl →
  (Z.to_nat (total_number c) < fuel)%nat →
  ∃ calls,
    log (snd (final (pass fuel (c, w)))) = log w ++ calls ∧
    call_req <$> calls
      = window_request c tmpl
          <$> window_offsets 0 (total_number c) (batch_size c) ∧
    (λ k, Z.of_nat (length (window_of k))) <$> calls
      = (λ o, Z.min (batch_size c) (total_number c - o))
          <$> window_offsets 0 (total_number c) (batch_size c) ∧
    yielded (pass fuel (c, w)) = concat (window_of <$> calls) ∧
    Z.of_nat (length (yielded (pass fuel (c, w)))) = Z.max 0 (total_number c) ∧
    ending (pass fuel (c, w))
      = (if 0 <? total_number c then Exhausted
         else Propagated StopIteration) ∧
    answered (es_conn c) calls.
Proof. apply pass_full_windows. Qed.

(** What [static_index] answers to a windowed request. *)
Lemma static_index_window docs c tmpl h o :
  0 ≤ o → 0 ≤ batch_size c →
  static_index docs h (window_request c tmpl o)
    = Hits (mkResponse (Z.of_nat (length docs))
              (take (Z.to_nat (batch_size c)) (drop (Z.to_nat o) docs))).
Proof.
  intros Ho Hb. unfold static_index, window_request, int_field.
  cbn [req_body]. rewrite body_batch_from, body_batch_size.
  destruct (Z.leb_spec 0 o); [|lia].
  by destruct (Z.leb_spec 0 (batch_size c)); [|lia].
Qed.

(** An index that holds exactly as many documents as the effective total
    returns full windows. *)
Lemma static_index_full docs c tmpl :
  es_conn c = static_index docs →
  total_number c = Z.of_nat (length docs) →
  0 ≤ batch_size c →
  full_windows c tmpl.
Proof.
  intros Hes Htot Hb h j o Ho. rewrite Hes, static_index_window by lia.
  eexists. split; [reflexivity|]. cbn [resp_hits].
  rewrite length_take, length_drop. lia.
Qed.

(** Scenario A: 25 matching documents, batch size 10. *)
Lemma full_windows_pass_witness :
  let c := mkESCursor (static_index (numbered 25)) "bank" default_doc_type
             0%nat 25 10 0 0%nat 0%nat None in
  let w := world_with default_query_body in
  heap w !! body c = Some default_query_body ∧
  1 ≤ batch_size c ∧
  full_windows c default_query_body ∧
  (Z.to_nat (total_number c) < 30)%nat ∧
  ∃ calls,
    log (snd (final (pass 30 (c, w)))) = log w ++ calls ∧
    call_req <$> calls = window_request c default_query_body <$> [0; 10; 20] ∧
    (λ k, Z.of_nat (length (window_of k))) <$> calls = [10; 10; 5] ∧
    yielded (pass 30 (c, w)) = concat (window_of <$> calls) ∧
    Z.of_nat (length (yielded (pass 30 (c, w)))) = 25 ∧
    ending (pass 30 (c, w)) = Exhausted ∧
    answered (es_conn c) calls.
Proof.
  intros c w.
  assert (Hfull : full_windows c default_query_body)
    by (apply (static_index_full (numbered 25)); [reflexivity | reflexivity
        | simpl; lia]).
  assert (Hfuel : (Z.to_nat (total_number c) < 30)%nat) by (simpl; lia).
  assert (Hb : 1 ≤ batch_size c) by (simpl; lia).
  split; [reflexivity|]. split; [exact Hb|]. split; [exact Hfull|].
  split; [exact Hfuel|].
  exact (full_windows_pass 30 c w default_query_body eq_refl Hb Hfull Hfuel).
Defined.

(** Scenario A from construction on: the offsets requested, the sizes of
    the windows and the documents yielded. *)
Example scenario_A :
  ∃ s, scenario (static_index (numbered 25)) None 10 = Some s ∧
    total_number (fst s) = 25 ∧ batch_size (fst s) = 10 ∧
    from_of <$> calls_since 1 (final (pass 30 s))
      = [Some (JInt 0); Some (JInt 10); Some (JInt 20)] ∧
    length ∘ window_of <$> calls_since 1 (final (pass 30 s))
      = [10; 10; 5]%nat ∧
    yielded (pass 30 s) = numbered 25 ∧
    ending (pass 30 s) = Exhausted.
Proof.
  eexists. split; [reflexivity|].
  repeat split; vm_compute; reflexivity.
Qed.

(** ** A limit below the number of matches *)

(** C2 fails on the code: with a limit of 25 over an index of 40 matching
    documents and a batch size of 10, the third window is requested with
    size 10 at offset 20 and comes back full, so that a pass yields 30
    documents, five more than the effective total. *)
Lemma limit_overshoot :
  ∃ s, scenario (static_index (numbered 40)) (Some 25) 10 = Some s ∧
    total_number (fst s) = 25 ∧ batch_size (fst s) = 10 ∧
    from_of <$> calls_since 1 (final (pass 50 s))
      = [Some (JInt 0); Some (JInt 10); Some (JInt 20)] ∧
    size_of <$> calls_since 1 (final (pass 50 s))
      = [Some (JInt 10); Some (JInt 10); Some (JInt 10)] ∧
    length ∘ window_of <$> calls_since 1 (final (pass 50 s))
      = [10; 10; 10]%nat ∧
    yielded (pass 50 s) = numbered 30 ∧
    ending (pass 50 s) = Exhausted ∧
    ¬ (Z.of_nat (length (yielded (pass 50 s))) ≤ total_number (fst s)).
Proof.
  eexists. split; [reflexivity|].
  split; [reflexivity|]. split; [reflexivity|].
  split; [vm_compute; reflexivity|]. split; [vm_compute; reflexivity|].
  split; [vm_compute; reflexivity|]. split; [vm_compute; reflexivity|].
  split; [vm_compute; reflexivity|].
  intros H. vm_compute in H. by apply H.
Qed.

(** ** A pass over an unchanging index *)

Lemma windows_of_calls (es : Backend) (f : Z → Request)
    (g : Z → list Doc) calls offs :
  call_req <$> calls = f <$> offs →
  answered es calls →
  (∀ hst o, o ∈ offs → ∃ r, es hst (f o) = Hits r ∧ resp_hits r = g o) →
  window_of <$> calls = g <$> offs.
Proof.
  revert offs. induction calls as [|k calls IH]; intros [|o offs] Hreq Hans Hg;
    try discriminate Hreq; [done|].
  injection Hreq as Hk Hreq. apply Forall_cons in Hans as [[hst Hres] Hans].
  cbn. f_equal.
  - destruct (Hg hst o) as (r & Hr & Hhits); [by left|].
    unfold window_of. by rewrite Hres, Hk, Hr.
  - apply IH; [done | done |]. intros hst' o' Ho'. apply Hg. by right.
Qed.

Lemma window_offsets_nonneg o total b x :
  0 ≤ o → 0 ≤ b → x ∈ window_offsets o total b → 0 ≤ x.
Proof.
  intros Ho Hb Hx. unfold window_offsets in Hx.
  apply list_elem_of_fmap in Hx as (j & -> & _). nia.
Qed.

Lemma concat_windows (docs : list Doc) b n : ∀ o,
  1 ≤ b → 0 ≤ o →
  Z.of_nat (length docs) - o ≤ Z.of_nat n * b →
  concat ((λ o, take (Z.to_nat b) (drop (Z.to_nat o) docs))
            <$> window_offsets o (Z.of_nat (length docs)) b)
    = drop (Z.to_nat o) docs.
Proof.
  induction n as [|n IH]; intros o Hb Ho Hn.
  - rewrite window_offsets_nil, drop_ge by lia. done.
  - destruct (Z.le_gt_cases (Z.of_nat (length docs)) o) as [Hge|Hlt].
    { rewrite window_offsets_nil, drop_ge by lia. done. }
    rewrite window_offsets_cons by lia. cbn. rewrite IH by lia.
    rewrite Z2Nat.inj_add, <- drop_drop by lia. apply take_drop.
Qed.

(** Over an index that holds exactly as many documents as the effective
    total and does not change, a pass yields every document once, in the
    order of the index. *)
Lemma static_index_pass fuel c w tmpl docs :
  heap w !! body c = Some tmpl →
  es_conn c = static_index docs →
  total_number c = Z.of_nat (length docs) →
  1 ≤ batch_size c →
  (length docs < fuel)%nat →
  yielded (pass fuel (c, w)) = docs.
Proof.
  intros Ht Hes Htot Hb Hfuel.
  destruct (pass_full_windows fuel c w tmpl Ht Hb)
    as (calls & _ & Hreq & _ & Hy & _ & _ & Hans);
    [by apply (static_index_full docs); [| |lia] | lia |].
  rewrite Hy.
  rewrite (windows_of_calls (es_conn c) (window_request c tmpl)
             (λ o, take (Z.to_nat (batch_size c)) (drop (Z.to_nat o) docs))
             calls _ Hreq Hans).
  - rewrite Htot, (concat_windows docs _ (length docs)) by nia. apply drop_0.
  - intros hst o Ho. apply window_offsets_nonneg in Ho; [|lia..].
    rewrite Hes, static_index_window by lia. eauto.
Qed.

(** * Further properties of the code *)

(** ** Construction *)

(** When the count request fails, the constructor raises the backend's
    error as it is: no cursor is built, and the one request made is the only
    trace. *)
Theorem init_count_fault es i dt l tn bs w info :
  es (log w) (count_request i dt (deref (heap w) l)) = Fault info →
  fst (__init__ es i dt l tn bs w) = Raise (BackendError info) ∧
  log (snd (__init__ es i dt l tn bs w))
    = log w ++ [mkCall (count_request i dt (deref (heap w) l)) (Fault info)] ∧
  ∀ l' d, heap w !! l' = Some d →
          heap (snd (__init__ es i dt l tn bs w)) !! l' = Some d.
Proof.
  intros Hf. rewrite __init___eq. cbn zeta. rewrite Hf. cbn [fst snd log heap].
  split; [done|]. split; [done|]. intros l' d Hd. by apply lookup_app_l_Some.
Qed.

Lemma init_count_fault_witness :
  let es := unreachable "connection refused" in
  let w := world_with default_query_body in
  es (log w) (count_request "bank" "_doc" (deref (heap w) 0%nat))
    = Fault "connection refused" ∧
  fst (__init__ es "bank" "_doc" 0%nat (Some 5) 10 w)
    = Raise (BackendError "connection refused") ∧
  log (snd (__init__ es "bank" "_doc" 0%nat (Some 5) 10 w))
    = log w ++ [mkCall (count_request "bank" "_doc" (deref (heap w) 0%nat))
                  (Fault "connection refused")] ∧
  ∀ l' d, heap w !! l' = Some d →
          heap (snd (__init__ es "bank" "_doc" 0%nat (Some 5) 10 w)) !! l'
            = Some d.
Proof.
  intros es w. split; [reflexivity|].
  exact (init_count_fault es "bank" "_doc" 0%nat (Some 5) 10 w
           "connection refused" eq_refl).
Defined.

(** A cursor that was built never has an effective total above the
    backend's count nor a batch size above the effective total or the
    configured one; and with a configured batch size of at least one, a
    cursor that has something to visit asks for at least one document per
    window. *)
Theorem init_bounds es i dt l tn bs w r :
  es (log w) (count_request i dt (deref (heap w) l)) = Hits r →
  ∃ c w', __init__ es i dt l tn bs w = (Return c, w') ∧
    total_number c ≤ resp_total r ∧
    batch_size c ≤ total_number c ∧
    batch_size c ≤ bs ∧
    (1 ≤ bs → 1 ≤ total_number c → 1 ≤ batch_size c).
Proof.
  intros Hr. rewrite __init___eq. cbn zeta. rewrite Hr.
  eexists _, _. split; [reflexivity|]. cbn [total_number batch_size].
  rewrite batch_size_min.
  assert (effective_total tn (resp_total r) ≤ resp_total r).
  { destruct tn as [n|]; [rewrite effective_total_min|cbn]; lia. }
  lia.
Qed.

Lemma init_bounds_witness :
  let es := static_index (numbered 7) in
  let w := world_with default_query_body in
  es (log w) (count_request "bank" "_doc" (deref (heap w) 0%nat))
    = Hits (mkResponse 7 []) ∧
  ∃ c w', __init__ es "bank" "_doc" 0%nat (Some 30) 4 w = (Return c, w') ∧
    total_number c ≤ 7 ∧
    batch_size c ≤ total_number c ∧
    batch_size c ≤ 4 ∧
    (1 ≤ 4 → 1 ≤ total_number c → 1 ≤ batch_size c).
Proof.
  intros es w. split; [vm_compute; reflexivity|].
  apply (init_bounds es "bank" "_doc" 0%nat (Some 30) 4 w (mkResponse 7 [])).
  vm_compute. reflexivity.
Defined.

(** ** The paging state stays consistent *)

Lemma consistent_fresh es i dt l t bs :
  consistent (mkESCursor es i dt l t bs 0 0%nat 0%nat None).
Proof. split; [done|]. split; [done|]. by left. Qed.

Lemma consistent_loaded c o h : 0 ≤ o → consistent (loaded c o h).
Proof.
  intros Ho. split; [cbn; lia|]. split; [done|]. right. by exists h.
Qed.

Lemma next_consistent c w :
  consistent c →
  consistent (fst (snd (__next__ (c, w)))) ∧ regular (fst (__next__ (c, w))).
Proof.
  intros (Hi & Ho & Hh).
  destruct (decide (inbtach_idx c < current_batch_size c)%nat) as [Hf|Hs].
  - destruct Hh as [Hz|(h & Hh & Hn)]; [lia|].
    destruct (lookup_lt_is_Some_2 h (inbtach_idx c)) as [d Hd]; [lia|].
    rewrite (next_in_window c w h d) by done. cbn [fst snd].
    split; [|done]. split; [cbn; lia|]. split; [done|]. right. by exists h.
  - apply Nat.nlt_ge in Hs.
    destruct (Z.le_gt_cases (total_number c)
                (offset c + Z.of_nat (current_batch_size c))) as [Hge|Hlt].
    + rewrite next_stop by done. cbn [fst snd]. split; [|done].
      split; [done|]. split; [cbn; lia|done].
    + rewrite next_fetch by done. cbn zeta.
      destruct (es_conn c _ _) as [r|info]; cbn [fst snd].
      * destruct (resp_hits r) as [|d ds] eqn:Hr; cbn [fst snd].
        { split; [|done]. apply consistent_loaded. lia. }
        split; [|done]. split; [cbn; lia|]. split; [cbn; lia|].
        right. by exists (d :: ds).
      * split; [|done]. split; [done|]. split; [cbn; lia|done].
Qed.

Lemma iter_consistent c w :
  consistent (fst (snd (__iter__ (c, w)))) ∧
  (fst (__iter__ (c, w)) = Return () ∨
   fst (__iter__ (c, w)) = Raise StopIteration ∨
   ∃ info, fst (__iter__ (c, w)) = Raise (BackendError info)).
Proof.
  rewrite __iter___eq.
  destruct (Z.le_gt_cases (total_number (restarted c))
              (offset (restarted c)
               + Z.of_nat (current_batch_size (restarted c)))) as [Hge|Hlt].
  - rewrite fetch_stop by done. cbn [fst snd]. split; [|by right; left].
    split; [done|]. split; [done|]. by left.
  - rewrite fetch_go by done. cbn zeta.
    destruct (es_conn _ _ _) as [r|info]; cbn [fst snd].
    + split; [|by left]. by apply consistent_loaded.
    + split; [|right; right; by exists info].
      split; [done|]. split; [done|]. by left.
Qed.

Lemma run_ops_consistent ops c w :
  consistent c → consistent (fst (run_ops ops (c, w))).
Proof.
  revert c w. induction ops as [|o ops IH]; intros c w Hc; [done|].
  cbn [run_ops foldl].
  assert (Hc1 : consistent (fst (run_op o (c, w)))).
  { destruct o; [apply iter_consistent | by apply next_consistent]. }
  destruct (run_op o (c, w)) as [c1 w1]. by apply IH.
Qed.

Lemma built_consistent es i dt l tn bs w c :
  fst (__init__ es i dt l tn bs w) = Return c → consistent c.
Proof.
  intros Hc. rewrite __init___eq in Hc. cbn zeta in Hc. cbn [fst] in Hc.
  destruct (es _ _); [|discriminate]. injection Hc as <-.
  apply consistent_fresh.
Qed.

(** Whatever a caller does with a cursor it has built (restarts and
    next-item calls in any order, errors caught), the paging state stays
    consistent: the index is within the current window, the offset is not
    negative, and a non-empty window is the list of hits that is stored. *)
Theorem paging_state_consistent es i dt l tn bs w c ops :
  fst (__init__ es i dt l tn bs w) = Return c →
  consistent (fst (run_ops ops (c, snd (__init__ es i dt l tn bs w)))).
Proof.
  intros Hc. apply run_ops_consistent. by eapply built_consistent.
Qed.

Lemma paging_state_consistent_witness :
  let es := static_index (numbered 5) in
  let w := world_with default_query_body in
  let c := mkESCursor es "bank" "_doc" 0%nat 5 2 0 0%nat 0%nat None in
  let ops := [NextItem; Restart; NextItem; NextItem; NextItem; Restart] in
  fst (__init__ es "bank" "_doc" 0%nat None 2 w) = Return c ∧
  consistent (fst (run_ops ops (c, snd (__init__ es "bank" "_doc" 0%nat None 2 w)))).
Proof.
  intros es w c ops.
  assert (Hc : fst (__init__ es "bank" "_doc" 0%nat None 2 w) = Return c)
    by reflexivity.
  split; [exact Hc|].
  exact (paging_state_consistent es "bank" "_doc" 0%nat None 2 w c ops Hc).
Defined.

(** A cursor that was built never fails on its own: although the list of
    hits does not exist before the first fetch, [__next__] called at any
    moment (also before any restart) returns a document, raises
    [StopIteration] or passes on an error of the backend; it never raises
    [AttributeError] or [IndexError]. *)
Theorem next_never_fails_internally es i dt l tn bs w c ops :
  fst (__init__ es i dt l tn bs w) = Return c →
  regular
    (fst (__next__ (run_ops ops (c, snd (__init__ es i dt l tn bs w))))).
Proof.
  intros Hc.
  pose proof (run_ops_consistent ops c (snd (__init__ es i dt l tn bs w))
                (built_consistent _ _ _ _ _ _ _ _ Hc)) as Hcons.
  destruct (run_ops ops _) as [c1 w1]. by apply next_consistent.
Qed.

(** A cursor whose count went stale: [__next__] is called before any
    restart, and then twice more. *)
Lemma next_never_fails_internally_witness :
  let es := emptied_after_count (numbered 5) in
  let w := world_with default_query_body in
  let c := mkESCursor es "bank" "_doc" 0%nat 5 2 0 0%nat 0%nat None in
  let ops := [NextItem; NextItem] in
  fst (__init__ es "bank" "_doc" 0%nat None 2 w) = Return c ∧
  regular
    (fst (__next__
            (run_ops ops (c, snd (__init__ es "bank" "_doc" 0%nat None 2 w))))).
Proof.
  intros es w c ops.
  assert (Hc : fst (__init__ es "bank" "_doc" 0%nat None 2 w) = Return c)
    by reflexivity.
  split; [exact Hc|].
  exact (next_never_fails_internally es "bank" "_doc" 0%nat None 2 w c ops Hc).
Defined.

(** ** What a pass yields, whatever the backend does *)

Lemma pending_loaded c o h : pending (loaded c o h) = h.
Proof.
  unfold pending. cbn. case_decide as Hz; [|done].
  by destruct h.
Qed.

Lemma pending_first c o d ds :
  pending (set_inbtach_idx 1 (loaded c o (d :: ds))) = ds.
Proof. unfold pending. cbn. by case_decide. Qed.

Lemma pending_boundary c :
  consistent c → (current_batch_size c ≤ inbtach_idx c)%nat → pending c = [].
Proof.
  intros (Hi & _ & Hh) Hs. unfold pending. case_decide; [done|].
  destruct Hh as [?|(h & -> & Hn)]; [done|]. cbn. apply drop_ge. lia.
Qed.

Lemma for_each_concat fuel : ∀ acc c w,
  consistent c →
  ∃ calls,
    log (snd (final (for_each fuel acc (c, w)))) = log w ++ calls ∧
    yielded (for_each fuel acc (c, w))
      ++ pending (fst (final (for_each fuel acc (c, w))))
      = acc ++ pending c ++ concat (window_of <$> calls) ∧
    (ending (for_each fuel acc (c, w)) ≠ Unfinished →
     pending (fst (final (for_each fuel acc (c, w)))) = []).
Proof.
  induction fuel as [|fuel IH]; intros acc c w Hc.
  { exists []. cbn. by rewrite !app_nil_r. }
  cbn [for_each]. pose proof Hc as (Hi & Ho & Hh).
  destruct (decide (inbtach_idx c < current_batch_size c)%nat) as [Hf|Hs].
  - destruct Hh as [Hz|(h & Hh & Hn)]; [lia|].
    destruct (lookup_lt_is_Some_2 h (inbtach_idx c)) as [d Hd]; [lia|].
    rewrite (next_in_window c w h d) by done.
    destruct (IH (acc ++ [d]) (set_inbtach_idx (inbtach_idx c + 1) c) w)
      as (calls & Hl & Hy & He).
    { split; [cbn; lia|]. split; [done|]. right. by exists h. }
    exists calls. split; [done|]. split; [|done]. rewrite Hy.
    unfold pending. cbn [set_inbtach_idx current_batch_size inbtach_idx hits].
    case_decide; [lia|]. rewrite Hh. cbn [default from_option id].
    rewrite (drop_S _ _ _ Hd), Nat.add_1_r, <- !app_assoc. done.
  - apply Nat.nlt_ge in Hs. rewrite (pending_boundary c Hc Hs).
    destruct (Z.le_gt_cases (total_number c)
                (offset c + Z.of_nat (current_batch_size c))) as [Hge|Hlt].
    + rewrite next_stop by done. exists []. cbn [yielded final ending fst snd].
      change (pending (set_offset _ c)) with (pending c).
      rewrite (pending_boundary c Hc Hs), !app_nil_r. done.
    + rewrite next_fetch by done. cbn zeta.
      destruct (es_conn c _ _) as [r|info] eqn:Hr.
      * destruct (resp_hits r) as [|d ds] eqn:Hds.
        { eexists [_]. cbn [yielded final ending fst snd].
          rewrite pending_loaded. split; [reflexivity|].
          cbn. by rewrite Hds, !app_nil_r. }
        match goal with |- context [for_each fuel ?a (?c1, ?w1)] =>
          destruct (IH a c1 w1) as (calls & Hl & Hy & He) end.
        { split; [cbn; lia|]. split; [cbn; lia|]. right. by exists (d :: ds). }
        eexists (_ :: calls). split; [rewrite Hl; cbn; by rewrite <- app_assoc|].
        split; [|done]. rewrite Hy, pending_first. cbn. rewrite Hds.
        by rewrite <- !app_assoc.
      * eexists [_]. cbn [yielded final ending fst snd].
        change (pending (set_offset _ c)) with (pending c).
        rewrite (pending_boundary c Hc Hs). split; [reflexivity|].
        cbn. by rewrite !app_nil_r.
Qed.

(** Nothing the backend returns is dropped or yielded twice: at any moment
    of a pass the documents yielded so far, followed by the unread rest of
    the current window, are the concatenation of all windows returned so
    far; and when the pass has ended, for whatever reason, the documents
    yielded are exactly that concatenation. *)
Theorem pass_yields_windows fuel c w :
  ∃ calls,
    log (snd (final (pass fuel (c, w)))) = log w ++ calls ∧
    yielded (pass fuel (c, w)) ++ pending (fst (final (pass fuel (c, w))))
      = concat (window_of <$> calls) ∧
    (ending (pass fuel (c, w)) ≠ Unfinished →
     yielded (pass fuel (c, w)) = concat (window_of <$> calls)).
Proof.
  unfold pass. rewrite __iter___eq.
  destruct (Z.le_gt_cases (total_number (restarted c))
              (offset (restarted c)
               + Z.of_nat (current_batch_size (restarted c)))) as [Hge|Hlt].
  { rewrite fetch_stop by done. exists []. cbn. by rewrite app_nil_r. }
  rewrite fetch_go by done. cbn zeta.
  destruct (es_conn _ _ _) as [r|info] eqn:Hr.
  - match goal with |- context [for_each fuel ?a (?c1, ?w1)] =>
      destruct (for_each_concat fuel a c1 w1) as (calls & Hl & Hy & He) end.
    { by apply consistent_loaded. }
    rewrite pending_loaded in Hy.
    eexists (_ :: calls). split; [rewrite Hl; cbn; by rewrite <- app_assoc|].
    split; [exact Hy|]. intros Hend. rewrite (He Hend), app_nil_r in Hy.
    exact Hy.
  - eexists [_]. split; [reflexivity|]. by cbn.
Qed.

(** ** How many requests a pass makes *)

Lemma for_each_requests fuel : ∀ acc c w,
  ∃ calls,
    log (snd (final (for_each fuel acc (c, w)))) = log w ++ calls ∧
    (length calls
     ≤ Z.to_nat (total_number c
                 - (offset c + Z.of_nat (current_batch_size c))))%nat ∧
    ∀ j k, calls !! j = Some k → (S j < length calls)%nat → window_of k ≠ [].
Proof.
  induction fuel as [|fuel IH]; intros acc c w.
  { exists []. cbn. rewrite app_nil_r. split; [done|]. split; [lia|].
    intros j k Hk. by rewrite lookup_nil in Hk. }
  cbn [for_each].
  destruct (decide (inbtach_idx c < current_batch_size c)%nat) as [Hf|Hs].
  - destruct (next_fast c w Hf) as (r & c1 & -> & Hne & Hc1).
    destruct r as [d|e].
    + destruct (IH (acc ++ [d]) c1 w) as (calls & Hl & Hn & Hw).
      exists calls. split; [done|]. split; [|done]. by destruct Hc1 as [->| ->].
    + exists []. rewrite app_nil_r. split; [by destruct e|].
      split; [cbn; lia|]. intros j k Hk. by rewrite lookup_nil in Hk.
  - apply Nat.nlt_ge in Hs.
    destruct (Z.le_gt_cases (total_number c)
                (offset c + Z.of_nat (current_batch_size c))) as [Hge|Hlt].
    + rewrite next_stop by done. exists []. rewrite app_nil_r.
      split; [done|]. split; [cbn; lia|].
      intros j k Hk. by rewrite lookup_nil in Hk.
    + rewrite next_fetch by done. cbn zeta.
      destruct (es_conn c _ _) as [r|info] eqn:Hr.
      * destruct (resp_hits r) as [|d ds] eqn:Hds.
        { eexists [_]. split; [reflexivity|]. split; [cbn; lia|].
          intros j k _ Hj. cbn in Hj. lia. }
        match goal with |- context [for_each fuel ?a (?c1, ?w1)] =>
          destruct (IH a c1 w1) as (calls & Hl & Hn & Hw) end.
        eexists (_ :: calls). split; [rewrite Hl; cbn; by rewrite <- app_assoc|].
        split; [cbn in Hn |- *; lia|].
        intros [|j] k Hk Hj; cbn in Hk, Hj.
        -- injection Hk as <-. cbn. by rewrite Hds.
        -- apply (Hw j k Hk). lia.
      * eexists [_]. split; [reflexivity|]. split; [cbn; lia|].
        intros j k _ Hj. cbn in Hj. lia.
Qed.

(** Whatever the backend returns, a pass makes at most one windowed
    request more than the effective total, and none when the total is not
    positive: every window but the first that is followed by another
    request has at least one document, so that from the second request on
    the offset moves forward.  Only the first window, fetched by the
    restart, is requested once more when it is empty.  In particular a
    pass cannot keep asking for empty windows. *)
Theorem pass_request_bound fuel c w :
  ∃ calls,
    log (snd (final (pass fuel (c, w)))) = log w ++ calls ∧
    (length calls ≤ Z.to_nat (total_number c) + 1)%nat ∧
    (total_number c ≤ 0 → calls = []) ∧
    ∀ j k, calls !! S j = Some k → (S (S j) < length calls)%nat →
           window_of k ≠ [].
Proof.
  unfold pass. rewrite __iter___eq.
  destruct (Z.le_gt_cases (total_number (restarted c))
              (offset (restarted c)
               + Z.of_nat (current_batch_size (restarted c)))) as [Hge|Hlt].
  { rewrite fetch_stop by done. exists []. cbn. rewrite app_nil_r.
    split; [done|]. split; [lia|]. split; [done|]. by intros j k Hk. }
  cbn in Hlt. rewrite fetch_go by (cbn; lia). cbn zeta.
  destruct (es_conn _ _ _) as [r|info] eqn:Hr.
  - match goal with |- context [for_each fuel ?a (?c1, ?w1)] =>
      destruct (for_each_requests fuel a c1 w1) as (calls & Hl & Hn & Hw) end.
    eexists (_ :: calls). split; [rewrite Hl; cbn; by rewrite <- app_assoc|].
    split; [cbn in Hn |- *; lia|]. split; [lia|].
    intros j k Hk Hj. cbn in Hk, Hj. apply (Hw j k Hk). lia.
  - eexists [_]. split; [reflexivity|]. split; [cbn; lia|]. split; [lia|].
    intros j k _ Hj. cbn in Hj. lia.
Qed.

(** ** How far a pass can go beyond the limit *)

Lemma for_each_bounded fuel : ∀ acc c w tmpl,
  consistent c → heap w !! body c = Some tmpl → honours_size c tmpl →
  Z.of_nat (length acc) ≤ offset c + Z.of_nat (inbtach_idx c) →
  offset c + Z.of_nat (current_batch_size c)
    ≤ Z.max 0 (total_number c + batch_size c - 1) →
  Z.of_nat (length (yielded (for_each fuel acc (c, w))))
    ≤ Z.max 0 (total_number c + batch_size c - 1) ∧
  (Z.max 0 (total_number c + batch_size c - 1) - Z.of_nat (length acc)
     < Z.of_nat fuel →
   ending (for_each fuel acc (c, w)) ≠ Unfinished).
Proof.
  induction fuel as [|fuel IH]; intros acc c w tmpl Hc Ht Hhon Hacc Hwin.
  { pose proof Hc as (Hi & _). cbn. split; lia. }
  cbn [for_each]. pose proof Hc as (Hi & Ho & Hh).
  destruct (decide (inbtach_idx c < current_batch_size c)%nat) as [Hf|Hs].
  - destruct Hh as [Hz|(h & Hh & Hn)]; [lia|].
    destruct (lookup_lt_is_Some_2 h (inbtach_idx c)) as [d Hd]; [lia|].
    rewrite (next_in_window c w h d) by done.
    destruct (IH (acc ++ [d]) (set_inbtach_idx (inbtach_idx c + 1) c) w tmpl)
      as [Hy He]; try done.
    { split; [cbn; lia|]. split; [done|]. right. by exists h. }
    { rewrite length_app. cbn. lia. }
    split; [exact Hy|]. intros Hfuel. apply He. rewrite length_app. cbn. lia.
  - apply Nat.nlt_ge in Hs.
    destruct (Z.le_gt_cases (total_number c)
                (offset c + Z.of_nat (current_batch_size c))) as [Hge|Hlt].
    + rewrite next_stop by done. cbn. split; [lia|done].
    + rewrite next_fetch by done. cbn zeta.
      rewrite (batch_request_window c w tmpl) by done.
      destruct (es_conn c _ _) as [r|info] eqn:Hr; [|cbn; split; [lia|done]].
      pose proof (Hhon _ _ _ Hr) as Hlen.
      destruct (resp_hits r) as [|d ds] eqn:Hds; [cbn; split; [lia|done]|].
      match goal with |- context [for_each fuel ?a (?c1, ?w1)] =>
        destruct (IH a c1 w1 tmpl) as [Hy He] end.
      * split; [cbn; lia|]. split; [cbn; lia|]. right. by exists (d :: ds).
      * exact (fetched_world_template c w _ _ tmpl Ht).
      * exact Hhon.
      * rewrite length_app. cbn. lia.
      * cbn [set_inbtach_idx loaded offset current_batch_size total_number
             batch_size]. lia.
      * cbn [set_inbtach_idx loaded total_number batch_size] in Hy, He.
        split; [exact Hy|]. intros Hfuel. apply He. rewrite length_app. cbn.
        lia.
Qed.

(** Against a backend that returns at most as many documents as a window
    asks for, a pass yields fewer than the effective total plus the batch
    size (the overshoot stays below one batch), and it ends: a loop given
    that many steps is never cut short. *)
Theorem pass_bounded fuel c w tmpl :
  heap w !! body c = Some tmpl →
  honours_size c tmpl →
  Z.of_nat (length (yielded (pass fuel (c, w))))
    ≤ Z.max 0 (total_number c + batch_size c - 1) ∧
  (Z.max 0 (total_number c + batch_size c - 1) < Z.of_nat fuel →
   ending (pass fuel (c, w)) ≠ Unfinished).
Proof.
  intros Ht Hhon. unfold pass. rewrite __iter___eq.
  destruct (Z.le_gt_cases (total_number (restarted c))
              (offset (restarted c)
               + Z.of_nat (current_batch_size (restarted c)))) as [Hge|Hlt].
  { rewrite fetch_stop by done. cbn. split; [lia|done]. }
  rewrite fetch_go by done. cbn zeta.
  rewrite (batch_request_window (restarted c) w tmpl) by done.
  destruct (es_conn _ _ _) as [r|info] eqn:Hr; [|cbn; split; [lia|done]].
  pose proof (Hhon _ _ _ Hr) as Hlen. cbn in Hlt.
  match goal with |- context [for_each fuel ?a (?c1, ?w1)] =>
    destruct (for_each_bounded fuel a c1 w1 tmpl) as [Hy He] end.
  - by apply consistent_loaded.
  - exact (fetched_world_template (restarted c) w _ _ tmpl Ht).
  - exact Hhon.
  - cbn. lia.
  - cbn [loaded restarted offset current_batch_size total_number batch_size].
    cbn in Hlen. lia.
  - cbn [loaded restarted total_number batch_size] in Hy, He.
    split; [exact Hy|]. intros Hfuel. apply He. cbn. lia.
Qed.

Lemma static_index_honours docs c tmpl :
  es_conn c = static_index docs → honours_size c tmpl.
Proof.
  intros Hes hst o r. rewrite Hes. unfold static_index, window_request, int_field.
  cbn [req_body]. rewrite body_batch_from, body_batch_size.
  destruct (0 <=? o); [|discriminate].
  destruct (Z.leb_spec 0 (batch_size c)); [|discriminate].
  intros [= <-]. cbn. rewrite length_take. lia.
Qed.

(** The limit of 25 over 40 matching documents: 30 documents, below 35. *)
Lemma pass_bounded_witness :
  let c := mkESCursor (static_index (numbered 40)) "bank" "_doc" 0%nat
             25 10 0 0%nat 0%nat None in
  let w := world_with default_query_body in
  heap w !! body c = Some default_query_body ∧
  honours_size c default_query_body ∧
  Z.of_nat (length (yielded (pass 50 (c, w)))) ≤ 34 ∧
  (34 < 50 → ending (pass 50 (c, w)) ≠ Unfinished).
Proof.
  intros c w.
  assert (Hhon : honours_size c default_query_body)
    by (by apply (static_index_honours (numbered 40))).
  split; [reflexivity|]. split; [exact Hhon|].
  exact (pass_bounded 50 c w default_query_body eq_refl Hhon).
Defined.

(** ** Restarting *)

Lemma next_fast_world c w w' :
  (inbtach_idx c < current_batch_size c)%nat →
  ∃ r c1, __next__ (c, w) = (r, (c1, w)) ∧ __next__ (c, w') = (r, (c1, w')) ∧
    (c1 = c ∨ c1 = set_inbtach_idx (inbtach_idx c + 1) c).
Proof.
  intros Hlt. unfold __next__, mbind, M_bind, self, update, mret, M_ret, raise.
  cbn [fst snd]. rewrite bool_decide_eq_false_2 by lia. cbn [fst snd].
  destruct (hits c) as [h|]; [|eexists _, _; eauto].
  destruct (h !! inbtach_idx c); eexists _, _; eauto.
Qed.

(** Against an unchanged backend the loop of a pass does not depend on the
    world it runs in, as long as the query body is the same. *)
Lemma for_each_world fuel : ∀ acc c w w' tmpl,
  unchanged (es_conn c) →
  heap w !! body c = Some tmpl → heap w' !! body c = Some tmpl →
  yielded (for_each fuel acc (c, w)) = yielded (for_each fuel acc (c, w')) ∧
  ending (for_each fuel acc (c, w)) = ending (for_each fuel acc (c, w')).
Proof.
  induction fuel as [|fuel IH]; intros acc c w w' tmpl Hun Ht Ht'; [done|].
  cbn [for_each].
  destruct (decide (inbtach_idx c < current_batch_size c)%nat) as [Hf|Hs].
  - destruct (next_fast_world c w w' Hf) as (r & c1 & -> & -> & Hc1).
    destruct r as [d|e]; [|by destruct e].
    apply (IH _ c1 w w' tmpl); by destruct Hc1 as [->| ->].
  - apply Nat.nlt_ge in Hs.
    destruct (Z.le_gt_cases (total_number c)
                (offset c + Z.of_nat (current_batch_size c))) as [Hge|Hlt].
    + by rewrite !next_stop.
    + rewrite !next_fetch by done. cbn zeta.
      rewrite (batch_request_window c w tmpl),
        (batch_request_window c w' tmpl) by done.
      rewrite (Hun (log w') (log w)).
      destruct (es_conn c _ _) as [r|info]; [|done].
      destruct (resp_hits r) as [|d ds]; [done|].
      apply (IH _ _ _ _ tmpl); [exact Hun | |].
      * exact (fetched_world_template c w _ _ tmpl Ht).
      * exact (fetched_world_template c w' _ _ tmpl Ht').
Qed.

Lemma pass_same_config fuel c c' w w' tmpl :
  unchanged (es_conn c) → same_config c c' →
  heap w !! body c = Some tmpl → heap w' !! body c = Some tmpl →
  yielded (pass fuel (c', w')) = yielded (pass fuel (c, w)) ∧
  ending (pass fuel (c', w')) = ending (pass fuel (c, w)).
Proof.
  intros Hun (He & Hi & Hd & Hb & Htot & Hbs) Ht Ht'.
  assert (Hload : ∀ h, loaded (restarted c') 0 h = loaded (restarted c) 0 h).
  { intros h. unfold loaded, restarted. cbn. by rewrite He, Hi, Hd, Hb, Htot, Hbs. }
  assert (Hreq : batch_request (restarted c') w' 0
                 = batch_request (restarted c) w 0).
  { unfold batch_request. cbn. rewrite Hi, Hd, Hb, Hbs.
    unfold deref. by rewrite Ht, Ht'. }
  unfold pass. rewrite !__iter___eq.
  destruct (Z.le_gt_cases (total_number c) 0) as [Hge|Hlt].
  { rewrite !fetch_stop by (cbn; lia). done. }
  rewrite !fetch_go by (cbn; lia). cbn zeta.
  change (offset (restarted c') + Z.of_nat (current_batch_size (restarted c')))
    with 0.
  change (offset (restarted c) + Z.of_nat (current_batch_size (restarted c)))
    with 0.
  rewrite Hreq. change (es_conn (restarted c')) with (es_conn c').
  change (es_conn (restarted c)) with (es_conn c).
  rewrite He, (Hun (log w') (log w)).
  destruct (es_conn c _ _) as [r|info]; [|done]. rewrite Hload.
  apply (for_each_world fuel [] _ _ _ tmpl); [exact Hun | |].
  - cbn. by apply lookup_app_l_Some.
  - exact (fetched_world_template (restarted c) w 0 _ tmpl Ht).
Qed.

Lemma next_config c w : same_config c (fst (snd (__next__ (c, w)))).
Proof.
  destruct (decide (inbtach_idx c < current_batch_size c)%nat) as [Hf|Hs].
  { by destruct (next_fast c w Hf) as (r & c1 & -> & _ & [->| ->]). }
  apply Nat.nlt_ge in Hs.
  destruct (Z.le_gt_cases (total_number c)
              (offset c + Z.of_nat (current_batch_size c))) as [Hge|Hlt].
  - by rewrite next_stop.
  - rewrite next_fetch by done. cbn zeta.
    destruct (es_conn c _ _) as [r|info]; [|done].
    by destruct (resp_hits r).
Qed.

Lemma iter_config c w : same_config c (fst (snd (__iter__ (c, w)))).
Proof.
  rewrite __iter___eq.
  destruct (Z.le_gt_cases (total_number (restarted c))
              (offset (restarted c)
               + Z.of_nat (current_batch_size (restarted c)))) as [Hge|Hlt].
  - by rewrite fetch_stop.
  - rewrite fetch_go by done. cbn zeta. by destruct (es_conn _ _ _).
Qed.

Lemma run_ops_config ops c w : same_config c (fst (run_ops ops (c, w))).
Proof.
  revert c w. induction ops as [|o ops IH]; intros c w; [done|].
  cbn [run_ops foldl].
  assert (H1 : same_config c (fst (run_op o (c, w))))
    by (destruct o; [apply iter_config | apply next_config]).
  destruct (run_op o (c, w)) as [c1 w1]. specialize (IH c1 w1).
  unfold run_ops in IH. cbn [fst] in H1.
  destruct H1 as (? & ? & ? & ? & ? & ?), IH as (? & ? & ? & ? & ? & ?).
  repeat split; congruence.
Qed.

(** Restarting reproduces the sequence: against an unchanged backend,
    whatever was done with the cursor before (restarts and next-item calls
    in any order, a pass left half-way or completed), a new pass yields the
    same documents and ends the same way as a pass on the cursor as it was.
    The total is not counted again. *)
Theorem restart_reproduces fuel c w tmpl ops :
  unchanged (es_conn c) →
  heap w !! body c = Some tmpl →
  yielded (pass fuel (run_ops ops (c, w))) = yielded (pass fuel (c, w)) ∧
  ending (pass fuel (run_ops ops (c, w))) = ending (pass fuel (c, w)) ∧
  total_number (fst (run_ops ops (c, w))) = total_number c.
Proof.
  intros Hun Ht.
  pose proof (run_ops_config ops c w) as Hcfg.
  destruct (run_ops_frame ops c w) as (h' & Hb & Hh).
  destruct (run_ops ops (c, w)) as [c' w'] eqn:Hrun. cbn [fst snd] in *.
  destruct (pass_same_config fuel c c' w w' tmpl Hun Hcfg Ht) as [Hy He].
  { rewrite Hh. by apply lookup_app_l_Some. }
  split; [exact Hy|]. split; [exact He|].
  by destruct Hcfg as (_ & _ & _ & _ & ? & _).
Qed.

(** A pass of three documents is left after two of them, and the cursor
    is read to its end and beyond before the new pass. *)
Lemma restart_reproduces_witness :
  let c := mkESCursor (static_index (numbered 7)) "bank" "_doc" 0%nat
             7 3 0 0%nat 0%nat None in
  let w := world_with default_query_body in
  let ops := [Restart; NextItem; NextItem; Restart; NextItem; NextItem;
              NextItem; NextItem; NextItem; NextItem; NextItem; NextItem] in
  unchanged (es_conn c) ∧
  heap w !! body c = Some default_query_body ∧
  yielded (pass 20 (run_ops ops (c, w))) = yielded (pass 20 (c, w)) ∧
  ending (pass 20 (run_ops ops (c, w))) = ending (pass 20 (c, w)) ∧
  total_number (fst (run_ops ops (c, w))) = total_number c.
Proof.
  intros c w ops.
  assert (Hun : unchanged (es_conn c)) by (intros h1 h2 req; reflexivity).
  split; [exact Hun|]. split; [reflexivity|].
  exact (restart_reproduces 20 c w default_query_body ops Hun eq_refl).
Defined.

(** ** A backend error in the middle of a pass *)

Lemma from_of_new_call (l : list Call) k :
  from_of <$> drop (length l) (l ++ [k]) = [from_of k].
Proof. by rewrite (drop_app_length l). Qed.

(** A backend error during a fetch that follows a window [h] with at least
    one document: the offset [o] was advanced before the request and the
    window state was not replaced, so that the next [__next__] advances
    the offset by the size of [h] once more.  It does not ask for the
    offset [o] that failed again but for [o + length h], which lies
    beyond it, or it ends the sequence without a request if that offset
    reaches the total. *)
Theorem fault_then_retry_skips c w h info :
  hits c = Some h → current_batch_size c = length h →
  inbtach_idx c = length h →
  (0 < length h)%nat →
  offset c + Z.of_nat (length h) < total_number c →
  es_conn c (log w)
    (batch_request c w (offset c + Z.of_nat (length h))) = Fault info →
  let o := offset c + Z.of_nat (length h) in
  let s1 := snd (__next__ (c, w)) in
  fst (__next__ (c, w)) = Raise (BackendError info) ∧
  fst s1 = set_offset o c ∧
  from_of <$> drop (length (log w)) (log (snd s1)) = [Some (JInt o)] ∧
  o < o + Z.of_nat (length h) ∧
  (total_number c ≤ o + Z.of_nat (length h) →
   __next__ s1
     = (Raise StopIteration,
        (set_offset (o + Z.of_nat (length h)) c, snd s1))) ∧
  (o + Z.of_nat (length h) < total_number c →
   from_of <$> drop (length (log (snd s1))) (log (snd (snd (__next__ s1))))
     = [Some (JInt (o + Z.of_nat (length h)))]).
Proof.
  intros Hh Hn Hi Hpos Hlt Hf. cbv zeta.
  remember (offset c + Z.of_nat (length h)) as o eqn:Ho.
  assert (Hnext : __next__ (c, w)
                  = (Raise (BackendError info),
                     (set_offset o c, fetched_world c w o (Fault info)))).
  { rewrite next_fetch by (rewrite ?Hn; lia). cbn zeta.
    by rewrite Hn, <- Ho, Hf. }
  rewrite Hnext. cbn [fst snd].
  split; [done|]. split; [done|].
  split.
  { cbn [fetched_world log]. etrans; [apply from_of_new_call|].
    unfold from_of. cbn. by rewrite body_batch_from. }
  split; [lia|].
  split.
  - intros Hge. rewrite next_stop by (cbn; rewrite ?Hn; lia).
    cbn [set_offset offset current_batch_size]. by rewrite Hn.
  - intros Hlt2. rewrite next_fetch by (cbn; rewrite ?Hn; lia). cbn zeta.
    cbn [set_offset offset current_batch_size es_conn]. rewrite Hn.
    match goal with |- context [match ?e with Hits _ => _ | Fault _ => _ end] =>
      destruct e as [r|info'] end;
      [destruct (resp_hits r)|];
      cbn [snd fetched_world log]; (etrans; [apply from_of_new_call|]);
      unfold from_of; cbn; by rewrite body_batch_from.
Qed.

(** Thirty matching documents in batches of ten; the backend is lost after
    the first window: the retry asks for offset 20, not 10. *)
Lemma fault_then_retry_skips_witness :
  let h := numbered 10 in
  let c := mkESCursor (unreachable "timeout") "bank" "_doc" 0%nat
             30 10 0 10%nat 10%nat (Some h) in
  let w := world_with default_query_body in
  let s1 := snd (__next__ (c, w)) in
  hits c = Some h ∧ current_batch_size c = length h ∧
  inbtach_idx c = length h ∧
  (0 < length h)%nat ∧
  offset c + Z.of_nat (length h) < total_number c ∧
  es_conn c (log w) (batch_request c w (offset c + Z.of_nat (length h)))
    = Fault "timeout" ∧
  fst (__next__ (c, w)) = Raise (BackendError "timeout") ∧
  fst s1 = set_offset 10 c ∧
  from_of <$> drop (length (log w)) (log (snd s1)) = [Some (JInt 10)] ∧
  10 < 20 ∧
  (total_number c ≤ 20 →
   __next__ s1 = (Raise StopIteration, (set_offset 20 c, snd s1))) ∧
  (20 < total_number c →
   from_of <$> drop (length (log (snd s1))) (log (snd (snd (__next__ s1))))
     = [Some (JInt 20)]).
Proof.
  intros h c w s1.
  split; [reflexivity|]. split; [reflexivity|]. split; [reflexivity|].
  split; [simpl; lia|]. split; [simpl; lia|]. split; [reflexivity|].
  exact (fault_then_retry_skips c w h "timeout" eq_refl eq_refl eq_refl
           ltac:(simpl; lia) ltac:(simpl; lia) eq_refl).
Defined.

(** ** When the limit is exact *)

Lemma concat_windows_limit (docs : list Doc) b n : ∀ o,
  1 ≤ b → 0 ≤ o →
  concat ((λ o, take (Z.to_nat b) (drop (Z.to_nat o) docs))
            <$> window_offsets o (o + Z.of_nat n * b) b)
    = take (Z.to_nat (Z.of_nat n * b)) (drop (Z.to_nat o) docs).
Proof.
  induction n as [|n IH]; intros o Hb Ho.
  - rewrite window_offsets_nil by lia. by cbn.
  - rewrite window_offsets_cons by nia. cbn [fmap list_fmap concat].
    replace (o + Z.of_nat (S n) * b) with ((o + b) + Z.of_nat n * b) by lia.
    rewrite IH by lia.
    replace (Z.to_nat (Z.of_nat (S n) * b))
      with (Z.to_nat b + Z.to_nat (Z.of_nat n * b))%nat by nia.
    rewrite <- take_take_drop, drop_drop. do 3 f_equal. lia.
Qed.

Lemma static_index_full_multiple docs c tmpl (k : nat) :
  es_conn c = static_index docs →
  total_number c = Z.of_nat k * batch_size c →
  total_number c ≤ Z.of_nat (length docs) →
  1 ≤ batch_size c →
  full_windows c tmpl.
Proof.
  intros Hes Htot Hlen Hb h j. cbn zeta. intros Ho.
  assert (Hj : 0 ≤ Z.of_nat j * batch_size c) by nia.
  assert (Hlt : Z.of_nat j < Z.of_nat k) by nia.
  assert (Hjk : Z.of_nat j * batch_size c + batch_size c ≤ total_number c)
    by (rewrite Htot; nia).
  rewrite Hes, static_index_window by lia.
  eexists. split; [reflexivity|]. cbn [resp_hits].
  rewrite length_take, length_drop. lia.
Qed.

(** A pass over an unchanging index when the limit is exact. *)
Lemma static_index_pass_prefix fuel c w tmpl docs :
  heap w !! body c = Some tmpl →
  es_conn c = static_index docs →
  1 ≤ batch_size c →
  0 ≤ total_number c ≤ Z.of_nat (length docs) →
  (total_number c = Z.of_nat (length docs) ∨
   ∃ k : nat, total_number c = Z.of_nat k * batch_size c) →
  (Z.to_nat (total_number c) < fuel)%nat →
  yielded (pass fuel (c, w)) = take (Z.to_nat (total_number c)) docs.
Proof.
  intros Ht Hes Hb Htot Hcase Hfuel.
  destruct Hcase as [Hall|[k Hk]].
  - rewrite (static_index_pass fuel c w tmpl docs) by (done || lia).
    rewrite Hall, Nat2Z.id. by rewrite firstn_all.
  - destruct (pass_full_windows fuel c w tmpl Ht Hb)
      as (calls & _ & Hreq & _ & Hy & _ & _ & Hans);
      [by apply (static_index_full_multiple docs c tmpl k); [| |lia|] | lia |].
    rewrite Hy.
    rewrite (windows_of_calls (es_conn c) (window_request c tmpl)
               (λ o, take (Z.to_nat (batch_size c)) (drop (Z.to_nat o) docs))
               calls _ Hreq Hans).
    + rewrite Hk. replace (Z.of_nat k * batch_size c)
        with (0 + Z.of_nat k * batch_size c) at 1 by lia.
      rewrite (concat_windows_limit docs _ k 0) by lia. by rewrite drop_0.
    + intros hst o Ho. apply window_offsets_nonneg in Ho; [|lia..].
      rewrite Hes, static_index_window by lia. eauto.
Qed.

(** With a batch size of at least one, the limit is honoured exactly in
    two cases: when the index holds no more documents than the effective
    total, and when the batch size divides the effective total.  Over an
    unchanging index a pass then yields the first [total_number] documents
    of the index, in order and once each. *)
Theorem static_index_limit_exact fuel c w tmpl docs :
  heap w !! body c = Some tmpl →
  es_conn c = static_index docs →
  1 ≤ batch_size c →
  0 ≤ total_number c ≤ Z.of_nat (length docs) →
  (total_number c = Z.of_nat (length docs) ∨
   ∃ k : nat, total_number c = Z.of_nat k * batch_size c) →
  (Z.to_nat (total_number c) < fuel)%nat →
  yielded (pass fuel (c, w)) = take (Z.to_nat (total_number c)) docs.
Proof. apply static_index_pass_prefix. Qed.

(** A limit of 20 over 40 matching documents, in batches of 10. *)
Lemma static_index_limit_exact_witness :
  let docs := numbered 40 in
  let c := mkESCursor (static_index docs) "bank" "_doc" 0%nat
             20 10 0 0%nat 0%nat None in
  let w := world_with default_query_body in
  heap w !! body c = Some default_query_body ∧
  es_conn c = static_index docs ∧
  1 ≤ batch_size c ∧
  0 ≤ total_number c ≤ Z.of_nat (length docs) ∧
  (total_number c = Z.of_nat (length docs) ∨
   ∃ k : nat, total_number c = Z.of_nat k * batch_size c) ∧
  (Z.to_nat (total_number c) < 30)%nat ∧
  yielded (pass 30 (c, w)) = numbered 20.
Proof.
  intros docs c w.
  assert (H1 : 1 ≤ batch_size c) by (simpl; lia).
  assert (H2 : 0 ≤ total_number c ≤ Z.of_nat (length docs))
    by (vm_compute; split; discriminate).
  assert (H3 : total_number c = Z.of_nat (length docs) ∨
               ∃ k : nat, total_number c = Z.of_nat k * batch_size c)
    by (right; exists 2%nat; reflexivity).
  assert (H4 : (Z.to_nat (total_number c) < 30)%nat) by (simpl; lia).
  split; [reflexivity|]. split; [reflexivity|]. split; [exact H1|].
  split; [exact H2|]. split; [exact H3|]. split; [exact H4|].
  exact (static_index_limit_exact 30 c w default_query_body docs
           eq_refl eq_refl H1 H2 H3 H4).
Defined.

(** ** The stream of identifiers *)

Lemma yield_ids_all recs ending :
  Forall (λ rec : gmap string json, is_Some (rec !! "_id")) recs →
  yield_ids recs ending = (omap (λ rec, rec !! "_id") recs, ending) ∧
  length (omap (λ rec : gmap string json, rec !! "_id") recs) = length recs.
Proof.
  induction 1 as [|rec recs [v Hv] _ [IH IHn]]; [done|].
  cbn. rewrite Hv, IH. cbn. by rewrite IHn.
Qed.

(** When every hit of the scan carries an ["_id"], [get_id_iter] yields
    exactly one identifier per hit, in the order of the scan, and stops as
    the scan stops. *)
Theorem get_id_iter_all (scan : Scan) es i dt recs err :
  scan es (mkRequest i dt id_query_body) = (recs, err) →
  Forall (λ rec : gmap string json, is_Some (rec !! "_id")) recs →
  get_id_iter scan es i dt
    = (omap (λ rec, rec !! "_id") recs, ScanError <$> err) ∧
  length (fst (get_id_iter scan es i dt)) = length recs ∧
  ∀ n rec, recs !! n = Some rec →
           fst (get_id_iter scan es i dt) !! n = rec !! "_id".
Proof.
  intros Hs Hall. unfold get_id_iter. cbn zeta. rewrite Hs. cbn [fst snd].
  destruct (yield_ids_all recs (ScanError <$> err) Hall) as [-> Hlen].
  split; [done|]. split; [done|]. cbn [fst].
  clear Hlen Hs. induction Hall as [|r recs [v Hv] _ IH]; intros n rec Hn.
  { by destruct n. }
  cbn. rewrite Hv. destruct n as [|n]; cbn in *.
  - injection Hn as <-. done.
  - by apply IH.
Qed.

Lemma get_id_iter_all_witness :
  let recs : list (gmap string json) :=
    [ {[ "_id" := JStr "a"; "_index" := JStr "bank" ]};
      {[ "_id" := JStr "b"; "_index" := JStr "bank" ]} ] in
  let scan : Scan := λ _ _, (recs, None) in
  let es := static_index [] in
  scan es (mkRequest "bank" "_doc" id_query_body) = (recs, None) ∧
  Forall (λ rec : gmap string json, is_Some (rec !! "_id")) recs ∧
  get_id_iter scan es "bank" "_doc" = ([JStr "a"; JStr "b"], None) ∧
  length (fst (get_id_iter scan es "bank" "_doc")) = length recs ∧
  ∀ n rec, recs !! n = Some rec →
           fst (get_id_iter scan es "bank" "_doc") !! n = rec !! "_id".
Proof.
  intros recs scan es.
  assert (Hall : Forall (λ rec : gmap string json, is_Some (rec !! "_id")) recs)
    by (repeat constructor; by eexists).
  split; [reflexivity|]. split; [exact Hall|].
  exact (get_id_iter_all scan es "bank" "_doc" recs None eq_refl Hall).
Defined.

(** The first hit without an ["_id"] ends the stream with [KeyError]: the
    identifiers of the hits before it have been yielded, the hits after it
    are not looked at, and an error the scan would have ended with is not
    seen. *)
Theorem get_id_iter_missing_id (scan : Scan) es i dt pre rec post err :
  scan es (mkRequest i dt id_query_body) = (pre ++ rec :: post, err) →
  Forall (λ rec : gmap string json, is_Some (rec !! "_id")) pre →
  rec !! "_id" = None →
  get_id_iter scan es i dt
    = (omap (λ rec, rec !! "_id") pre, Some (KeyError "_id")) ∧
  length (fst (get_id_iter scan es i dt)) = length pre.
Proof.
  intros Hs Hall Hnone. unfold get_id_iter. cbn zeta. rewrite Hs.
  cbn [fst snd]. generalize (ScanError <$> err). intros e.
  clear Hs. induction Hall as [|r pre [v Hv] _ [IH IHn]].
  - cbn [app yield_ids]. by rewrite Hnone.
  - cbn [app yield_ids omap list_omap fst length] in *.
    rewrite IH in IHn. cbn [fst] in IHn.
    rewrite Hv, IH. cbn [fst length]. by rewrite IHn.
Qed.

Lemma get_id_iter_missing_id_witness :
  let pre : list (gmap string json) := [ {[ "_id" := JStr "a" ]} ] in
  let rec : gmap string json := {[ "_index" := JStr "bank" ]} in
  let post : list (gmap string json) := [ {[ "_id" := JStr "c" ]} ] in
  let scan : Scan := λ _ _, (pre ++ rec :: post, Some "timeout") in
  let es := static_index [] in
  scan es (mkRequest "bank" "_doc" id_query_body)
    = (pre ++ rec :: post, Some "timeout") ∧
  Forall (λ rec : gmap string json, is_Some (rec !! "_id")) pre ∧
  rec !! "_id" = None ∧
  get_id_iter scan es "bank" "_doc" = ([JStr "a"], Some (KeyError "_id")) ∧
  length (fst (get_id_iter scan es "bank" "_doc")) = length pre.
Proof.
  intros pre rec post scan es.
  assert (Hall : Forall (λ rec : gmap string json, is_Some (rec !! "_id")) pre)
    by (repeat constructor; by eexists).
  split; [reflexivity|]. split; [exact Hall|]. split; [reflexivity|].
  exact (get_id_iter_missing_id scan es "bank" "_doc" pre rec post
           (Some "timeout") eq_refl Hall eq_refl).
Defined.

(** ** The demonstration run *)

Lemma main_eq es l fuel w :
  main es l fuel w =
    let w1 := mkWorld
                (<[l := <["stored_fields" := JList []]> (deref (heap w) l)]>
                   (heap w))
                (log w) in
    match __init__ es "bank" "contact" l (Some 200) 10 w1 with
    | (Return c, w2) => (Return (pass fuel (c, w2)),
                         snd (final (pass fuel (c, w2))))
    | (Raise e, w2) => (Raise e, w2)
    end.
Proof.
  unfold main, mbind, M_bind, dict_setitem. cbn zeta.
  by destruct (__init__ _ _ _ _ _ _ _) as [[c|e] w2].
Qed.

Lemma for_each_frame fuel : ∀ acc c w,
  ∃ h', heap (snd (final (for_each fuel acc (c, w)))) = heap w ++ h'.
Proof.
  induction fuel as [|fuel IH]; intros acc c w.
  { exists []. cbn. by rewrite app_nil_r. }
  cbn [for_each]. destruct (next_frame c w) as (h1 & _ & Hh1).
  destruct (__next__ (c, w)) as [[d|e] [c1 w1]]; cbn [fst snd] in Hh1.
  - destruct (IH (acc ++ [d]) c1 w1) as (h2 & Hh2). exists (h1 ++ h2).
    by rewrite Hh2, Hh1, app_assoc.
  - exists h1. by destruct e.
Qed.

Lemma pass_frame fuel c w :
  ∃ h', heap (snd (final (pass fuel (c, w)))) = heap w ++ h'.
Proof.
  unfold pass. destruct (iter_frame c w) as (h1 & _ & Hh1).
  destruct (__iter__ (c, w)) as [[[]|e] [c1 w1]]; cbn [fst snd] in Hh1.
  - destruct (for_each_frame fuel [] c1 w1) as (h2 & Hh2). exists (h1 ++ h2).
    by rewrite Hh2, Hh1, app_assoc.
  - by exists h1.
Qed.

Lemma windowing_requests req_at o calls :
  windowing req_at o calls →
  Forall (λ k, ∃ o', call_req k = req_at o') calls.
Proof.
  induction 1; repeat constructor; eauto.
Qed.

(** The demonstration run changes the class-wide default query body
    itself: it adds ["stored_fields"] to the dict [ESCursor.default_query_body]
    refers to, not to a copy, and the dict stays so when the run is over,
    whatever the backend does.  Every request of the run, the count as well
    as each window, carries ["stored_fields": []]. *)
Theorem main_changes_default es l fuel w d :
  heap w !! l = Some d →
  heap (snd (main es l fuel w)) !! l
    = Some (<["stored_fields" := JList []]> d) ∧
  ∃ calls,
    log (snd (main es l fuel w)) = log w ++ calls ∧
    Forall (λ k, req_body (call_req k) !! "stored_fields" = Some (JList []))
      calls.
Proof.
  intros Hd. rewrite main_eq. cbn zeta. rewrite __init___eq. cbn zeta.
  cbn [heap log].
  assert (Hd0 : deref (heap w) l = d) by (unfold deref; by rewrite Hd).
  rewrite !Hd0.
  set (d' := <["stored_fields" := JList []]> d).
  assert (Hl : <[l := d']> (heap w) !! l = Some d')
    by (apply list_lookup_insert_eq; by eapply lookup_lt_Some).
  assert (Hderef : deref (<[l := d']> (heap w)) l = d')
    by (unfold deref; by rewrite Hl).
  rewrite !Hderef.
  assert (Hcount : count_body d' !! "stored_fields" = Some (JList [])).
  { unfold count_body. case_bool_decide; [|rewrite lookup_insert_ne by done];
      apply lookup_insert_eq. }
  destruct (es _ _) as [r|info].
  - set (c := mkESCursor _ _ _ _ _ _ _ _ _ _). set (w2 := mkWorld _ _).
    cbn [snd].
    assert (Ht : heap w2 !! body c = Some d')
      by (cbn; by apply lookup_app_l_Some).
    destruct (pass_frame fuel c w2) as (h' & Hh').
    destruct (pass_windowing_ind fuel c w2 d' Ht) as (calls & Hlog & Hwin & _).
    split; [rewrite Hh'; by apply lookup_app_l_Some|].
    eexists (_ :: calls). split; [rewrite Hlog; cbn; by rewrite <- app_assoc|].
    constructor; [exact Hcount|].
    eapply Forall_impl; [exact (windowing_requests _ _ _ Hwin)|].
    intros k [o' ->]. cbn. rewrite body_batch_other by done.
    apply lookup_insert_eq.
  - cbn [snd heap log]. split; [by apply lookup_app_l_Some|].
    eexists [_]. split; [reflexivity|]. by repeat constructor.
Qed.

(** The run against an index of three documents. *)
Lemma main_changes_default_witness :
  let es := static_index (numbered 3) in
  let w := world_with default_query_body in
  heap w !! 0%nat = Some default_query_body ∧
  heap (snd (main es 0%nat 9 w)) !! 0%nat
    = Some (<["stored_fields" := JList []]> default_query_body) ∧
  ∃ calls,
    log (snd (main es 0%nat 9 w)) = log w ++ calls ∧
    Forall (λ k, req_body (call_req k) !! "stored_fields" = Some (JList []))
      calls.
Proof.
  intros es w. split; [reflexivity|].
  exact (main_changes_default es 0%nat 9 w default_query_body eq_refl).
Defined.

(** Against an unchanging index the demonstration run prints the first 200
    matching documents, in the order of the index and once each, or all of
    them when there are fewer: its limit of 200 is a multiple of its batch
    size of 10, so that the last window is never too long. *)
Theorem main_prints_first_200 docs l fuel w :
  heap w !! l = Some default_query_body →
  (200 < fuel)%nat →
  ∃ r, fst (main (static_index docs) l fuel w) = Return r ∧
       yielded r = take 200 docs.
Proof.
  intros Hd Hfuel. rewrite main_eq. cbn zeta. rewrite __init___eq. cbn zeta.
  cbn [heap log].
  assert (Hd0 : deref (heap w) l = default_query_body)
    by (unfold deref; by rewrite Hd).
  rewrite !Hd0.
  set (d' := <["stored_fields" := JList []]> default_query_body).
  assert (Hl : <[l := d']> (heap w) !! l = Some d')
    by (apply list_lookup_insert_eq; by eapply lookup_lt_Some).
  assert (Hderef : deref (<[l := d']> (heap w)) l = d')
    by (unfold deref; by rewrite Hl).
  rewrite !Hderef.
  assert (Hcount : ∀ hst, static_index docs hst (count_request "bank" "contact" d')
                   = Hits (mkResponse (Z.of_nat (length docs)) [])).
  { intros hst. unfold static_index.
    replace (int_field (req_body (count_request "bank" "contact" d')) "from" 0)
      with (Some 0) by (vm_compute; reflexivity).
    replace (int_field (req_body (count_request "bank" "contact" d')) "size" 10)
      with (Some 0) by (vm_compute; reflexivity).
    done. }
  rewrite Hcount. cbn [fst resp_total]. rewrite effective_total_min, batch_size_min.
  set (total := Z.min 200 (Z.of_nat (length docs))).
  eexists. split; [reflexivity|].
  set (c := mkESCursor _ _ _ _ _ _ _ _ _ _). set (w2 := mkWorld _ _).
  destruct (decide (length docs = 0%nat)) as [Hz|Hnz].
  { rewrite pass_stop by (cbn; lia). cbn [yielded].
    by rewrite (nil_length_inv _ Hz). }
  rewrite (static_index_pass_prefix fuel c w2 d' docs).
  - cbn [c total_number]. unfold total.
    destruct (Z.min_spec 200 (Z.of_nat (length docs))) as [[? ->]|[? ->]].
    + done.
    + rewrite Nat2Z.id, !take_ge by lia. done.
  - cbn. by apply lookup_app_l_Some.
  - reflexivity.
  - cbn [c batch_size]. lia.
  - cbn [c total_number]. lia.
  - cbn [c total_number batch_size]. unfold total.
    destruct (Z.min_spec 200 (Z.of_nat (length docs))) as [[? ->]|[? ->]].
    + right. exists 20%nat. lia.
    + by left.
  - cbn [c total_number]. lia.
Qed.

Lemma main_prints_first_200_witness :
  let w := world_with default_query_body in
  heap w !! 0%nat = Some default_query_body ∧
  (200 < 300)%nat ∧
  ∃ r, fst (main (static_index (numbered 230)) 0%nat 300 w) = Return r ∧
       yielded r = numbered 200.
Proof.
  intros w. split; [reflexivity|]. split; [lia|].
  destruct (main_prints_first_200 (numbered 230) 0%nat 300 w eq_refl)
    as (r & Hr & Hy); [lia|].
  exists r. split; [exact Hr|]. rewrite Hy. vm_compute. reflexivity.
Defined.

(** ** Reading within a window, and reading without a restart *)

(** The documents of a window are served from memory: with a window [h]
    stored and [i] of its documents read, the next [length h - i] calls of
    [__next__] return the rest of [h] in order and leave the world as it
    is; no request is made and no dict object is created. *)
Theorem window_served_from_memory c w h :
  hits c = Some h → current_batch_size c = length h →
  (inbtach_idx c ≤ length h)%nat →
  nexts (length h - inbtach_idx c) (c, w)
    = (Return <$> drop (inbtach_idx c) h, (set_inbtach_idx (length h) c, w)).
Proof. intros Hh Hn Hi. apply nexts_window; [done | done | lia]. Qed.

Lemma window_served_from_memory_witness :
  let h := numbered 4 in
  let c := mkESCursor (unreachable "down") "bank" "_doc" 0%nat
             9 4 4 1%nat 4%nat (Some h) in
  let w := world_with default_query_body in
  hits c = Some h ∧ current_batch_size c = length h ∧
  (inbtach_idx c ≤ length h)%nat ∧
  nexts 3 (c, w)
    = ([Return (JInt 1); Return (JInt 2); Return (JInt 3)],
       (set_inbtach_idx 4 c, w)).
Proof.
  intros h c w. split; [reflexivity|]. split; [reflexivity|].
  split; [simpl; lia|].
  exact (window_served_from_memory c w h eq_refl eq_refl ltac:(simpl; lia)).
Defined.

(** A cursor in its initial paging state can be read without a restart:
    when the first window has a document, [__next__] alone does what
    [__iter__] followed by [__next__] does: one request for offset 0, the
    first document returned, and the same state left behind. *)
Theorem next_without_restart c w r d ds :
  offset c = 0 → inbtach_idx c = 0%nat → current_batch_size c = 0%nat →
  0 < total_number c →
  es_conn c (log w) (batch_request c w 0) = Hits r →
  resp_hits r = d :: ds →
  __next__ (c, w) = (__iter__ ;; __next__) (c, w) ∧
  fst (__next__ (c, w)) = Return d ∧
  log (snd (snd (__next__ (c, w))))
    = log w ++ [mkCall (batch_request c w 0) (Hits r)].
Proof.
  intros Ho Hi Hn Hpos Hr Hd.
  assert (Hnext : __next__ (c, w)
                  = (Return d, (set_inbtach_idx 1 (loaded c 0 (d :: ds)),
                                fetched_world c w 0 (Hits r)))).
  { rewrite next_fetch by (rewrite ?Hn, ?Ho, ?Hi; cbn; lia). cbn zeta.
    rewrite Hn, Ho. change (0 + Z.of_nat 0) with 0. by rewrite Hr, Hd. }
  rewrite Hnext. split; [|done].
  unfold mbind, M_bind. rewrite __iter___eq, fetch_go by (cbn; lia).
  cbn zeta.
  change (offset (restarted c) + Z.of_nat (current_batch_size (restarted c)))
    with 0.
  change (batch_request (restarted c) w 0) with (batch_request c w 0).
  change (es_conn (restarted c)) with (es_conn c). rewrite Hr.
  rewrite (next_in_window _ _ (d :: ds) d); [|by rewrite Hd..].
  by rewrite Hd.
Qed.

Lemma next_without_restart_witness :
  let c := mkESCursor (static_index (numbered 5)) "bank" "_doc" 0%nat
             5 2 0 0%nat 0%nat None in
  let w := world_with default_query_body in
  let r := mkResponse 5 [JInt 0; JInt 1] in
  offset c = 0 ∧ inbtach_idx c = 0%nat ∧ current_batch_size c = 0%nat ∧
  0 < total_number c ∧
  es_conn c (log w) (batch_request c w 0) = Hits r ∧
  resp_hits r = [JInt 0; JInt 1] ∧
  __next__ (c, w) = (__iter__ ;; __next__) (c, w) ∧
  fst (__next__ (c, w)) = Return (JInt 0) ∧
  log (snd (snd (__next__ (c, w))))
    = log w ++ [mkCall (batch_request c w 0) (Hits r)].
Proof.
  intros c w r.
  assert (Hr : es_conn c (log w) (batch_request c w 0) = Hits r)
    by (vm_compute; reflexivity).
  split; [reflexivity|]. split; [reflexivity|]. split; [reflexivity|].
  split; [simpl; lia|]. split; [exact Hr|]. split; [reflexivity|].
  exact (next_without_restart c w r (JInt 0) [JInt 1] eq_refl eq_refl eq_refl
           ltac:(simpl; lia) Hr eq_refl).
Defined.
